(** * HybridRecommender: a shallow embedding of [Recommender-snippet.ipynb]

    The notebook defines one class, [HybridRecommender], which blends the
    ratings predicted by a collaborative model (Surprise's SVD) with the
    similarities of a TF-IDF item index (scikit-learn) and ranks the
    catalogue for a user.

    What is embedded, and how:
    - scores are rationals ([Q]); the arithmetic of the source is written
      out operation by operation, so every equation proved below is an
      equation between the very expressions the source evaluates;
    - a [DataFrame] is a list of column names with a list of rows
      ([frame]); the rows of a CSV file carry the cells of the four columns
      the program ever reads;
    - Python exceptions are values of [exn]; code that can raise lives in
      the error monad [result], code that also assigns attributes, logs or
      touches the disk in the monad [M] over the instance and the [world];
    - an instance is a record of optional attributes ([obj]): an attribute
      that was never assigned raises [AttributeError] when it is read, which
      is what happens on the instances [load_model] builds through
      [cls.__new__];
    - Surprise, scikit-learn and joblib are not part of the repository: the
      training and vectorising calls are parameters of the development, and
      [joblib.dump]/[joblib.load] store and return the dumped value. *)

From Stdlib Require Import String ZArith QArith Bool Lia List.
From Stdlib Require Import Sorted Permutation.
Import ListNotations.

Local Open Scope Z_scope.
Local Open Scope list_scope.

(** ** Python values and exceptions *)

Inductive exn : Type :=
| ValueError (msg : string)
| FileNotFoundError (msg : string)
| IndexError (msg : string)
| AttributeError (msg : string)
| UnicodeDecodeError (msg : string)
| UnpicklingError (msg : string).

(** [str(e)]. *)
Definition str (e : exn) : string :=
  match e with
  | ValueError m | FileNotFoundError m | IndexError m | AttributeError m
  | UnicodeDecodeError m | UnpicklingError m => m
  end.

Inductive result (A : Type) : Type :=
| Ok (a : A)
| Raise (e : exn).
Arguments Ok {A} a.
Arguments Raise {A} e.

Definition bind {A B : Type} (m : result A) (k : A -> result B) : result B :=
  match m with
  | Ok a => k a
  | Raise e => Raise e
  end.

Declare Scope py_scope.
Delimit Scope py_scope with py.
Notation "x <- m ;; k" := (bind m (fun x => k))
  (at level 61, m at next level, right associativity) : py_scope.
Local Open Scope py_scope.

Fixpoint mapM {A B : Type} (f : A -> result B) (l : list A) : result (list B) :=
  match l with
  | [] => Ok []
  | x :: t => y <- f x ;; ys <- mapM f t ;; Ok (y :: ys)
  end.

(** [type(e).__name__]. *)
Definition class_name (e : exn) : string :=
  match e with
  | ValueError _ => "ValueError"
  | FileNotFoundError _ => "FileNotFoundError"
  | IndexError _ => "IndexError"
  | AttributeError _ => "AttributeError"
  | UnicodeDecodeError _ => "UnicodeDecodeError"
  | UnpicklingError _ => "UnpicklingError"
  end.

(** ** Data frames *)

Record frame (A : Type) : Type := mkFrame {
  columns : list string;
  rows : list A
}.
Arguments mkFrame {A} columns rows.
Arguments columns {A} f.
Arguments rows {A} f.

(** One line of a CSV file: the cells under the four column names the
    program reads.  A file lacking one of them is rejected by the column
    check of [_load_data] before any cell of that column is read.  A missing
    description (NaN) is [None]. *)
Record row : Type := mkRow {
  r_user_id : Z;
  r_item_id : Z;
  r_rating : Q;
  r_description : option string
}.

Definition has_column (cols : list string) (c : string) : bool :=
  existsb (String.eqb c) cols.

(** [Series.fillna(0)] on a score column. *)
Definition fillna (o : option Q) : Q :=
  match o with Some q => q | None => 0%Q end.

(** ** Python and pandas list operations *)

(** [Series.unique()]: the distinct values in order of first appearance. *)
Fixpoint unique (l : list Z) : list Z :=
  match l with
  | [] => []
  | x :: t => x :: filter (fun y => negb (y =? x)) (unique t)
  end.

(** [list(enumerate(l))]. *)
Definition enumerate {A : Type} (l : list A) : list (nat * A) :=
  combine (seq 0 (length l)) l.

(** A slice bound of Python: negative bounds count from the end, and both
    are clamped to the length. *)
Definition slice_bound (len i : Z) : Z :=
  if i <? 0 then Z.max 0 (i + len) else Z.min i len.

(** [l[start:stop]]. *)
Definition slice {A : Type} (start stop : Z) (l : list A) : list A :=
  let len := Z.of_nat (length l) in
  let a := slice_bound len start in
  let b := slice_bound len stop in
  firstn (Z.to_nat (b - a)) (skipn (Z.to_nat a) l).

(** [DataFrame.head(n)], which is [df.iloc[:n]]: the first [n] rows, and for
    a negative [n] all rows but the last [|n|]. *)
Definition head {A : Type} (n : Z) (l : list A) : list A :=
  slice 0 n l.

(** Descending stable sort on a rational key.  This is
    [sorted(l, key=key, reverse=True)] (Python's sort is stable, and
    [reverse=True] keeps equal elements in their original order).  It also
    stands for [DataFrame.sort_values(key, ascending=False)], whose default
    algorithm (quicksort) is not stable: the order it gives to rows of equal
    key is not the one of this function in general, and the properties
    below that go through [sort_values] hold for every order of such
    rows. *)
Section Sorting.
Context {A : Type} (key : A -> Q).

Fixpoint insert_desc (x : A) (l : list A) : list A :=
  match l with
  | [] => [x]
  | y :: t =>
      if Qle_bool (key y) (key x) then x :: y :: t
      else y :: insert_desc x t
  end.

Fixpoint sort_desc (l : list A) : list A :=
  match l with
  | [] => []
  | x :: t => insert_desc x (sort_desc t)
  end.

(** [descending] on a list: every element is at least as large as all the
    elements after it. *)
Definition descending (l : list A) : Prop :=
  StronglySorted (fun a b => (key b <= key a)%Q) l.
End Sorting.

(** The order of an enumerated row after a stable descending sort: higher
    score first, and among equal scores the earlier position first. *)
Definition by_score_then_position (p q : nat * Q) : Prop :=
  (snd q < snd p)%Q \/ ((snd q == snd p)%Q /\ (fst p < fst q)%nat).

(** Ascending sort of join keys. *)
Fixpoint insert_key (x : Z) (l : list Z) : list Z :=
  match l with
  | [] => [x]
  | y :: t => if x <=? y then x :: y :: t else y :: insert_key x t
  end.

Fixpoint sort_keys (l : list Z) : list Z :=
  match l with
  | [] => []
  | x :: t => insert_key x (sort_keys t)
  end.

(** [DataFrame.iloc[indices]]: rows by position; a position past the end
    raises. *)
Definition iloc {A : Type} (l : list A) (indices : list nat) : result (list A) :=
  mapM (fun i => match nth_error l i with
                 | Some x => Ok x
                 | None => Raise (IndexError "positional indexers are out-of-bounds")
                 end) indices.

(** [pd.merge(left, right, on='item_id', how='outer')] on two score frames:
    the union of the keys of both frames, sorted; under each key the
    pairs of the left and right rows carrying it, and a missing side is
    NaN. *)
Definition rows_of_key (k : Z) (l : list (Z * Q)) : list Q :=
  map snd (filter (fun p => fst p =? k) l).

Definition merge_outer (left right : list (Z * Q))
  : list (Z * option Q * option Q) :=
  let keys := sort_keys (unique (map fst left ++ map fst right)) in
  flat_map (fun k =>
    match rows_of_key k left, rows_of_key k right with
    | [], rs => map (fun r => (k, None, Some r)) rs
    | ls, [] => map (fun l => (k, Some l, None)) ls
    | ls, rs => flat_map (fun l => map (fun r => (k, Some l, Some r)) rs) ls
    end) keys.

(** Column names of [left.merge(right, on=key)]: a name other than the key
    that both frames have gets the suffixes [_x] and [_y]. *)
Definition merge_columns (key : string) (left right : list string) : list string :=
  map (fun c => if negb (String.eqb c key) && has_column right c
                then (c ++ "_x")%string else c) left
  ++ map (fun c => if has_column left c then (c ++ "_y")%string else c)
         (filter (fun c => negb (String.eqb c key)) right).

(** ** The recommender instance *)

(** The calls into Surprise and scikit-learn, which are not part of the
    repository.  Each field stands for the call named in its comment; a call
    that can fail returns a [result].  [train_test_split] shuffles and
    [SVD.fit] starts from random factors: a value of [Library] fixes one
    outcome of those draws. *)
Class Library : Type := {
  svd : Type;                 (* an [SVD] object *)
  trainset : Type;
  testset : Type;
  predictions : Type;
  vectorizer : Type;          (* a [TfidfVectorizer] *)
  tfidf_matrix_t : Type;      (* the sparse matrix of [fit_transform] *)
  (* [Dataset.load_from_df(df, Reader(rating_scale=(1, 5)))] followed by
     [train_test_split(data, test_size=0.25)] *)
  load_and_split : list (Z * Z * Q) -> result (trainset * testset);
  SVD : svd;                                           (* [SVD()] *)
  fit : svd -> trainset -> result svd;                 (* [model.fit(trainset)] *)
  test : svd -> testset -> result predictions;         (* [model.test(testset)] *)
  rmse : predictions -> result Q;                      (* [rmse(predictions)] *)
  est : svd -> Z -> Z -> Q;            (* [model.predict(uid, iid).est] *)
  TfidfVectorizer : vectorizer;        (* [TfidfVectorizer(stop_words='english')] *)
  fit_transform : vectorizer -> list (option string)
                  -> result (vectorizer * tfidf_matrix_t);
  linear_kernel : tfidf_matrix_t -> tfidf_matrix_t -> result (list (list Q))
}.

Inductive logger_t : Type := Logger (name : string).

Section Instance.
Context {L : Library}.

Record obj : Type := mkObj {
  o_alpha : option Q;
  o_logger : option logger_t;
  o_interactions : option (frame row);
  o_item_data : option (frame row);
  o_cf_model : option svd;
  o_tfidf : option vectorizer;
  o_tfidf_matrix : option tfidf_matrix_t;
  o_cosine_sim : option (list (list Q))
}.

(** [cls.__new__(cls)]: an instance with no attribute. *)
Definition new_obj : obj := mkObj None None None None None None None None.

(** Reading [self.<name>]. *)
Definition getattr {A : Type} (name : string) (a : option A) : result A :=
  match a with
  | Some v => Ok v
  | None => Raise (AttributeError
      ("'HybridRecommender' object has no attribute '" ++ name ++ "'")%string)
  end.

(** One line of the frame [recommend_items] ranks. [cb_score] is [None]
    both for a NaN left by the outer join and when the frame has no
    [cb_score] column at all (see [columns]). *)
Record scores : Type := mkScores {
  s_item_id : Z;
  cf_score : option Q;
  cb_score : option Q;
  hybrid_score : Q
}.

(** Lines 106-111: the collaborative predictions for every distinct item
    of the catalogue. *)
Definition cf_recs (self : obj) (user_id : Z) : result (list (Z * Q)) :=
  item_data <- getattr "item_data" (o_item_data self) ;;
  let all_items := unique (map r_item_id (rows item_data)) in
  mapM (fun iid =>
          cf_model <- getattr "cf_model" (o_cf_model self) ;;
          Ok (iid, est cf_model user_id iid)) all_items.

(** [self.item_data.index[self.item_data['item_id'] == item_id].tolist()]:
    the positions of the matching rows (the index of a frame read from CSV
    is 0, 1, 2, ...). *)
Definition index_of (item_data : frame row) (item_id : Z) : list nat :=
  map fst (filter (fun p => r_item_id (snd p) =? item_id)
                  (enumerate (rows item_data))).

(** Lines 113-122: the content-based candidates. *)
Definition cb_recs (self : obj) (item_id : option Z) (n : Z)
  : result (list (Z * Q)) :=
  match item_id with
  | Some item_id =>
      item_data <- getattr "item_data" (o_item_data self) ;;
      idx <- match index_of item_data item_id with
             | i :: _ => Ok i
             | [] => Raise (IndexError "list index out of range")
             end ;;
      cosine_sim <- getattr "cosine_sim" (o_cosine_sim self) ;;
      sim_row <- match nth_error cosine_sim idx with
                 | Some r => Ok r
                 | None => Raise (IndexError "index is out of bounds for axis 0")
                 end ;;
      let sim_scores := enumerate sim_row in
      let sim_scores := sort_desc snd sim_scores in
      let sim_scores := slice 1 (n + 1) sim_scores in
      let item_indices := map fst sim_scores in
      picked <- iloc (rows item_data) item_indices ;;
      Ok (combine (map r_item_id picked) (map snd sim_scores))
  | None => Ok []
  end.

(** Lines 124-130: the blend.  [cb_recs.empty] holds exactly when the
    content-based frame has no row. *)
Definition combine_recs (self : obj) (cf cb : list (Z * Q))
  : result (frame scores) :=
  match cb with
  | _ :: _ =>
      let recommendations := merge_outer cf cb in
      alpha <- getattr "alpha" (o_alpha self) ;;
      Ok (mkFrame ["item_id"; "cf_score"; "cb_score"; "hybrid_score"]%string
            (map (fun r => match r with
                           | (iid, cf_s, cb_s) =>
                               mkScores iid cf_s cb_s
                                 (alpha * fillna cf_s + (1 - alpha) * fillna cb_s)%Q
                           end) recommendations))
  | [] =>
      Ok (mkFrame ["item_id"; "cf_score"; "hybrid_score"]%string
            (map (fun r => mkScores (fst r) (Some (snd r)) None (snd r)) cf))
  end.

(** [left.merge(self.item_data, on='item_id')]: an inner join that keeps
    the order of the left rows. *)
Definition merge_item_data (left : frame scores) (item_data : frame row)
  : frame (scores * row) :=
  mkFrame (merge_columns "item_id" (columns left) (columns item_data))
    (flat_map (fun s =>
                 map (fun r => (s, r))
                     (filter (fun r => r_item_id r =? s_item_id s)
                             (rows item_data)))
              (rows left)).

(** [recommend_items(self, user_id, item_id=None, n=10)]. *)
Definition recommend_items (self : obj) (user_id : Z) (item_id : option Z)
    (n : Z) : result (frame (scores * row)) :=
  cf <- cf_recs self user_id ;;
  cb <- cb_recs self item_id n ;;
  recommendations <- combine_recs self cf cb ;;
  let recommendations :=
    mkFrame (columns recommendations)
            (head n (sort_desc hybrid_score (rows recommendations))) in
  item_data <- getattr "item_data" (o_item_data self) ;;
  Ok (merge_item_data recommendations item_data).



(** ** The world outside the instance: files and the logging module *)

(** What [joblib.dump] writes: the dictionary [model_data]. *)
Record model_data : Type := mkModelData {
  md_alpha : Q;
  md_tfidf : vectorizer;
  md_cf_model : svd;
  md_cosine_sim : list (list Q);
  md_item_data : frame row
}.

Inductive file : Type :=
| Csv (f : frame row)
| Joblib (m : model_data).

Inductive log_record : Type :=
| INFO (msg : string)
| INFO_rmse (v : Q)      (* f"CF model trained - RMSE: {rmse(predictions):.4f}" *)
| ERROR (msg : string).

Record world : Type := mkWorld {
  fs : string -> option file;
  log : list log_record;            (* newest first *)
  logging_configured : bool         (* [logging.basicConfig] has run *)
}.

(** The state a method runs in: the instance it mutates and the world. *)
Record state : Type := mkState {
  self : obj;
  env : world
}.

Definition M (A : Type) : Type := state -> result A * state.

Definition retM {A : Type} (a : A) : M A := fun st => (Ok a, st).

Definition raise {A : Type} (e : exn) : M A := fun st => (Raise e, st).

Definition bindM {A B : Type} (m : M A) (k : A -> M B) : M B :=
  fun st => match m st with
            | (Ok a, st') => k a st'
            | (Raise e, st') => (Raise e, st')
            end.

Declare Scope M_scope.
Delimit Scope M_scope with M.
Notation "x <- m ;; k" := (bindM m (fun x => k))
  (at level 61, m at next level, right associativity) : M_scope.
Notation "m ;; k" := (bindM m (fun _ => k))
  (at level 61, right associativity) : M_scope.

(** [try: body except Exception as e: handler(e); raise]. *)
Definition try_reraise {A : Type} (body : M A) (handler : exn -> M unit) : M A :=
  fun st => match body st with
            | (Ok a, st') => (Ok a, st')
            | (Raise e, st') =>
                match handler e st' with
                | (Ok _, st'') => (Raise e, st'')
                | (Raise e', st'') => (Raise e', st'')
                end
            end.

(** Reading an attribute of [self]. *)
Definition attr {A : Type} (name : string) (get : obj -> option A) : M A :=
  fun st => (getattr name (get (self st)), st).

Definition setattr (f : obj -> obj) : M unit :=
  fun st => (Ok tt, mkState (f (self st)) (env st)).

Definition set_alpha (v : Q) (o : obj) : obj :=
  mkObj (Some v) (o_logger o) (o_interactions o) (o_item_data o)
        (o_cf_model o) (o_tfidf o) (o_tfidf_matrix o) (o_cosine_sim o).
Definition set_logger (v : logger_t) (o : obj) : obj :=
  mkObj (o_alpha o) (Some v) (o_interactions o) (o_item_data o)
        (o_cf_model o) (o_tfidf o) (o_tfidf_matrix o) (o_cosine_sim o).
Definition set_interactions (v : frame row) (o : obj) : obj :=
  mkObj (o_alpha o) (o_logger o) (Some v) (o_item_data o)
        (o_cf_model o) (o_tfidf o) (o_tfidf_matrix o) (o_cosine_sim o).
Definition set_item_data (v : frame row) (o : obj) : obj :=
  mkObj (o_alpha o) (o_logger o) (o_interactions o) (Some v)
        (o_cf_model o) (o_tfidf o) (o_tfidf_matrix o) (o_cosine_sim o).
Definition set_cf_model (v : svd) (o : obj) : obj :=
  mkObj (o_alpha o) (o_logger o) (o_interactions o) (o_item_data o)
        (Some v) (o_tfidf o) (o_tfidf_matrix o) (o_cosine_sim o).
Definition set_tfidf (v : vectorizer) (o : obj) : obj :=
  mkObj (o_alpha o) (o_logger o) (o_interactions o) (o_item_data o)
        (o_cf_model o) (Some v) (o_tfidf_matrix o) (o_cosine_sim o).
Definition set_tfidf_matrix (v : tfidf_matrix_t) (o : obj) : obj :=
  mkObj (o_alpha o) (o_logger o) (o_interactions o) (o_item_data o)
        (o_cf_model o) (o_tfidf o) (Some v) (o_cosine_sim o).
Definition set_cosine_sim (v : list (list Q)) (o : obj) : obj :=
  mkObj (o_alpha o) (o_logger o) (o_interactions o) (o_item_data o)
        (o_cf_model o) (o_tfidf o) (o_tfidf_matrix o) (Some v).

(** A library call made from a method. *)
Definition call {A : Type} (r : result A) : M A := fun st => (r, st).

Definition emit (r : log_record) : M unit :=
  fun st => (Ok tt, mkState (self st)
                      (mkWorld (fs (env st)) (r :: log (env st))
                               (logging_configured (env st)))).

(** [self.logger.info(msg)] and [self.logger.error(msg)]. *)
Definition logger_info (msg : string) : M unit :=
  (_ <- attr "logger" o_logger ;; emit (INFO msg))%M.
Definition logger_error (msg : string) : M unit :=
  (_ <- attr "logger" o_logger ;; emit (ERROR msg))%M.

(** [Path(p).exists()]. *)
Definition path_exists (p : string) : M bool :=
  fun st => (Ok (match fs (env st) p with Some _ => true | None => false end), st).

(** [pd.read_csv(p)]. *)
Definition read_csv (p : string) : M (frame row) :=
  fun st => (match fs (env st) p with
             | Some (Csv f) => Ok f
             | Some (Joblib _) =>
                 Raise (UnicodeDecodeError "'utf-8' codec can't decode byte")
             | None => Raise (FileNotFoundError p)
             end, st).

(** [joblib.dump(value, p)] and [joblib.load(p)]. *)
Definition joblib_dump (m : model_data) (p : string) : M unit :=
  fun st => (Ok tt, mkState (self st)
                      (mkWorld (fun q => if String.eqb q p then Some (Joblib m)
                                         else fs (env st) q)
                               (log (env st)) (logging_configured (env st)))).

Definition joblib_load (p : string) (w : world) : result model_data :=
  match fs w p with
  | Some (Joblib m) => Ok m
  | Some (Csv _) => Raise (UnpicklingError "invalid load key")
  | None => Raise (FileNotFoundError p)
  end.

(** ** Construction *)

(** [_setup_logging]. *)
Definition _setup_logging : M unit :=
  (setattr (set_logger (Logger "__main__")) ;;
   fun st => (Ok tt, mkState (self st)
                       (mkWorld (fs (env st)) (log (env st)) true)))%M.

Definition required_interaction_cols : list string :=
  ["user_id"; "item_id"; "rating"]%string.
Definition required_metadata_cols : list string :=
  ["item_id"; "description"]%string.

(** [series.fillna('')] on the description column. *)
Definition fillna_description (f : frame row) : frame row :=
  mkFrame (columns f)
    (map (fun r => mkRow (r_user_id r) (r_item_id r) (r_rating r)
                     (Some (match r_description r with
                            | Some d => d
                            | None => ""%string
                            end)))
         (rows f)).

(** [_load_data]. *)
Definition _load_data (interactions_path metadata_path : string) : M unit :=
  (ei <- path_exists interactions_path ;;
   if negb ei then
     raise (FileNotFoundError
              ("Interactions file not found: " ++ interactions_path)%string)
   else
   em <- path_exists metadata_path ;;
   if negb em then
     raise (FileNotFoundError
              ("Metadata file not found: " ++ metadata_path)%string)
   else
   interactions <- read_csv interactions_path ;;
   setattr (set_interactions interactions) ;;
   item_data <- read_csv metadata_path ;;
   setattr (set_item_data item_data) ;;
   interactions <- attr "interactions" o_interactions ;;
   if negb (forallb (has_column (columns interactions)) required_interaction_cols)
   then raise (ValueError
     "Interactions data missing required columns: ['user_id', 'item_id', 'rating']")
   else
   item_data <- attr "item_data" o_item_data ;;
   if negb (forallb (has_column (columns item_data)) required_metadata_cols)
   then raise (ValueError
     "Item metadata missing required columns: ['item_id', 'description']")
   else
   item_data <- attr "item_data" o_item_data ;;
   setattr (set_item_data (fillna_description item_data)) ;;
   logger_info "Data loaded successfully")%M.

(** [self.interactions[['user_id', 'item_id', 'rating']]]. *)
Definition ratings_of (f : frame row) : list (Z * Z * Q) :=
  map (fun r => (r_user_id r, r_item_id r, r_rating r)) (rows f).

(** [_init_collaborative_filtering].  [fit] works on the object
    [self.cf_model] already refers to. *)
Definition _init_collaborative_filtering : M unit :=
  (logger_info "Initializing collaborative filtering model" ;;
   interactions <- attr "interactions" o_interactions ;;
   split <- call (load_and_split (ratings_of interactions)) ;;
   setattr (set_cf_model SVD) ;;
   cf_model <- attr "cf_model" o_cf_model ;;
   fitted <- call (fit cf_model (fst split)) ;;
   setattr (set_cf_model fitted) ;;
   cf_model <- attr "cf_model" o_cf_model ;;
   preds <- call (test cf_model (snd split)) ;;
   _ <- attr "logger" o_logger ;;
   v <- call (rmse preds) ;;
   emit (INFO_rmse v))%M.

(** [_init_content_based_filtering]. *)
Definition _init_content_based_filtering : M unit :=
  (logger_info "Initializing content-based filtering" ;;
   setattr (set_tfidf TfidfVectorizer) ;;
   tfidf <- attr "tfidf" o_tfidf ;;
   item_data <- attr "item_data" o_item_data ;;
   fitted <- call (fit_transform tfidf (map r_description (rows item_data))) ;;
   setattr (set_tfidf (fst fitted)) ;;
   setattr (set_tfidf_matrix (snd fitted)))%M.

(** [_calculate_similarity_matrix]. *)
Definition _calculate_similarity_matrix : M unit :=
  (logger_info "Calculating item similarity matrix" ;;
   m1 <- attr "tfidf_matrix" o_tfidf_matrix ;;
   m2 <- attr "tfidf_matrix" o_tfidf_matrix ;;
   sim <- call (linear_kernel m1 m2) ;;
   setattr (set_cosine_sim sim))%M.

(** [not 0 <= alpha <= 1]. *)
Definition alpha_out_of_range (alpha : Q) : bool :=
  negb (Qle_bool 0 alpha && Qle_bool alpha 1).

(** [__init__]. *)
Definition __init__ (interactions_path metadata_path : string) (alpha : Q)
  : M unit :=
  (if alpha_out_of_range alpha then
     raise (ValueError "Alpha must be between 0 and 1")
   else
   setattr (set_alpha alpha) ;;
   _setup_logging ;;
   logger_info "Initializing HybridRecommender" ;;
   try_reraise
     (_load_data interactions_path metadata_path ;;
      _init_collaborative_filtering ;;
      _init_content_based_filtering ;;
      _calculate_similarity_matrix)
     (fun e => logger_error ("Initialization failed: " ++ str e)%string))%M.

(** [HybridRecommender(interactions_path, metadata_path, alpha)]: a fresh
    object, then [__init__]; the object is returned only if [__init__]
    does not raise. *)
Definition HybridRecommender (interactions_path metadata_path : string)
    (alpha : Q) (w : world) : result obj * world :=
  match __init__ interactions_path metadata_path alpha (mkState new_obj w) with
  | (Ok _, st) => (Ok (self st), env st)
  | (Raise e, st) => (Raise e, env st)
  end.

(** ** Persistence *)

(** [save_model]. *)
Definition save_model (path : string) : M unit :=
  (alpha <- attr "alpha" o_alpha ;;
   tfidf <- attr "tfidf" o_tfidf ;;
   cf_model <- attr "cf_model" o_cf_model ;;
   cosine_sim <- attr "cosine_sim" o_cosine_sim ;;
   item_data <- attr "item_data" o_item_data ;;
   joblib_dump (mkModelData alpha tfidf cf_model cosine_sim item_data) path ;;
   logger_info ("Model saved to " ++ path)%string)%M.

(** [load_model], a class method: it runs on no instance. *)
Definition load_model (path : string) (w : world) : result obj * world :=
  match joblib_load path w with
  | Ok model_data =>
      let recommender := new_obj in
      let recommender := set_alpha (md_alpha model_data) recommender in
      let recommender := set_tfidf (md_tfidf model_data) recommender in
      let recommender := set_cf_model (md_cf_model model_data) recommender in
      let recommender := set_cosine_sim (md_cosine_sim model_data) recommender in
      let recommender := set_item_data (md_item_data model_data) recommender in
      (Ok recommender, w)
  | Raise e => (Raise e, w)
  end.

Definition item_ids (d : frame row) : list Z := map r_item_id (rows d).

(** The similarity matrix has one row and one column per catalogue row,
    which is what [linear_kernel] returns on the TF-IDF matrix of the
    catalogue. *)
Definition square (d : frame row) (sim : list (list Q)) : Prop :=
  length sim = length (rows d) /\
  Forall (fun r => length r = length (rows d)) sim.

(** An instance carrying the four attributes [recommend_items] reads. *)
Definition ready (self : obj) (d : frame row) (m : svd) (a : Q)
    (sim : list (list Q)) : Prop :=
  o_item_data self = Some d /\ o_cf_model self = Some m /\
  o_alpha self = Some a /\ o_cosine_sim self = Some sim /\ square d sim.

(** The conditions [__init__] itself checks on the files, and the success of
    the library calls it makes. *)
Definition inputs_ok (w : world) (interactions_path metadata_path : string)
    (fi fm : frame row) : Prop :=
  fs w interactions_path = Some (Csv fi) /\
  fs w metadata_path = Some (Csv fm) /\
  forallb (has_column (columns fi)) required_interaction_cols = true /\
  forallb (has_column (columns fm)) required_metadata_cols = true.

Definition libraries_ok (fi fm : frame row) (fitted : svd) (v : Q)
    (tf : vectorizer * tfidf_matrix_t) (sim : list (list Q)) : Prop :=
  exists split preds,
    load_and_split (ratings_of fi) = Ok split /\
    fit SVD (fst split) = Ok fitted /\
    test fitted (snd split) = Ok preds /\
    rmse preds = Ok v /\
    fit_transform TfidfVectorizer
      (map r_description (rows (fillna_description fm))) = Ok tf /\
    linear_kernel (snd tf) (snd tf) = Ok sim.

(** The instance and the log a successful construction leaves. *)
Definition constructed (alpha : Q) (fi fm : frame row) (fitted : svd)
    (tf : vectorizer * tfidf_matrix_t) (sim : list (list Q)) : obj :=
  mkObj (Some alpha) (Some (Logger "__main__")) (Some fi)
        (Some (fillna_description fm)) (Some fitted) (Some (fst tf))
        (Some (snd tf)) (Some sim).

Definition construction_log (v : Q) : list log_record :=
  [INFO "Calculating item similarity matrix";
   INFO "Initializing content-based filtering";
   INFO_rmse v;
   INFO "Initializing collaborative filtering model";
   INFO "Data loaded successfully";
   INFO "Initializing HybridRecommender"].

(** An instance holding the five attributes [save_model] dumps and the
    logger it reports to. *)
Definition complete (o : obj) (a : Q) (t : vectorizer) (m : svd)
    (sim : list (list Q)) (d : frame row) : Prop :=
  o_alpha o = Some a /\ o_tfidf o = Some t /\ o_cf_model o = Some m /\
  o_cosine_sim o = Some sim /\ o_item_data o = Some d /\
  exists lg, o_logger o = Some lg.

(** The instance [load_model] builds from a dumped dictionary. *)
Definition restored (md : model_data) : obj :=
  mkObj (Some (md_alpha md)) None None (Some (md_item_data md))
        (Some (md_cf_model md)) (Some (md_tfidf md)) None
        (Some (md_cosine_sim md)).

(** The disk after [joblib.dump(md, path)]. *)
Definition written (path : string) (md : model_data) (w : world) : world :=
  mkWorld (fun q => if String.eqb q path then Some (Joblib md) else fs w q)
          (log w) (logging_configured w).

End Instance.

(** ** Concrete inputs *)

(** A stand-in for the libraries, to run the program on concrete inputs: the
    split holds out a quarter of the ratings (rounded up) and never fails,
    the fitted model predicts the mid-scale rating 3 for every pair, [rmse]
    refuses an empty prediction list, and the similarity matrix is the
    identity (no two descriptions share a term).  It is run on non-empty
    rating files only. *)
Definition holdout (l : list (Z * Z * Q)) : nat :=
  Z.to_nat ((Z.of_nat (length l) + 3) / 4).

Definition identity_matrix (n : nat) : list (list Q) :=
  map (fun i => map (fun j => if Nat.eqb i j then 1%Q else 0%Q) (seq 0 n))
      (seq 0 n).

Definition demo_library : Library := {|
  svd := Z -> Z -> Q;
  trainset := list (Z * Z * Q);
  testset := list (Z * Z * Q);
  predictions := list (Q * Q);
  vectorizer := unit;
  tfidf_matrix_t := nat;
  load_and_split := fun l => Ok (skipn (holdout l) l, firstn (holdout l) l);
  SVD := fun _ _ => 0%Q;
  fit := fun _ _ => Ok (fun _ _ => 3%Q);
  test := fun m ts =>
    Ok (map (fun t => (snd t, m (fst (fst t)) (snd (fst t)))) ts);
  rmse := fun ps =>
    match ps with
    | [] => Raise (ValueError "Prediction list is empty.")
    | _ :: _ => Ok 1%Q
    end;
  est := fun m => m;
  TfidfVectorizer := tt;
  fit_transform := fun _ docs => Ok (tt, length docs);
  linear_kernel := fun n _ => Ok (identity_matrix n)
|}.

Definition item (iid : Z) (desc : string) : row :=
  mkRow 0 iid 0%Q (Some desc).

Definition interaction (uid iid : Z) (r : Q) : row :=
  mkRow uid iid r None.

(** A catalogue that lists item 2 before item 1. *)
Definition catalogue_21 : frame row :=
  mkFrame ["item_id"; "description"]%string
    [item 2 "sci-fi space opera"; item 1 "romantic drama"].

(** A catalogue whose second item has no description: its TF-IDF vector is
    zero, and so is its whole row of the similarity matrix. *)
Definition catalogue_blank : frame row :=
  mkFrame ["item_id"; "description"]%string
    [item 1 "space adventure"; item 2 ""].

Definition catalogue_3 : frame row :=
  mkFrame ["item_id"; "description"]%string
    [item 1 "space adventure sci-fi"; item 2 "sci-fi space opera";
     item 3 "romantic drama"].

Definition instance_of (alpha : Q) (d : frame row) (m : Z -> Z -> Q)
    (sim : list (list Q)) : @obj demo_library :=
  @mkObj demo_library (Some alpha) (Some (Logger "__main__")) None (Some d)
         (Some m) (Some tt) (Some (length (rows d))) (Some sim).

Definition recommender_21 : @obj demo_library :=
  instance_of (1 # 2) catalogue_21 (fun _ _ => 3%Q) (identity_matrix 2).

Definition recommender_blank : @obj demo_library :=
  instance_of (1 # 2) catalogue_blank (fun _ _ => 3%Q) [[1; 0]; [0; 0]]%Q.

Definition recommender_3 : @obj demo_library :=
  instance_of (1 # 2) catalogue_3 (fun _ i => inject_Z i)
    [[1; 1 # 2; 0]; [1 # 2; 1; 0]; [0; 0; 1]]%Q.

(** The same catalogue and model with all the weight on one signal. *)
Definition recommender_cf_only : @obj demo_library :=
  instance_of 1 catalogue_3 (fun _ i => inject_Z i)
    [[1; 1 # 2; 0]; [1 # 2; 1; 0]; [0; 0; 1]]%Q.

Definition recommender_cb_only : @obj demo_library :=
  instance_of 0 catalogue_3 (fun _ i => inject_Z i)
    [[1; 1 # 2; 0]; [1 # 2; 1; 0]; [0; 0; 1]]%Q.

Definition ratings_frame (l : list row) : frame row :=
  mkFrame ["user_id"; "item_id"; "rating"]%string l.

Definition disk (interactions : frame row) (metadata : frame row)
  : @world demo_library :=
  @mkWorld demo_library
    (fun p => if String.eqb p "user_item_interactions.csv"
              then Some (@Csv demo_library interactions)
              else if String.eqb p "item_metadata.csv"
              then Some (@Csv demo_library metadata)
              else None)
    [] false.

Definition ratings_4 : frame row :=
  ratings_frame [interaction 1 1 5; interaction 1 2 3; interaction 2 1 4;
                 interaction 2 3 2]%Q.

(** The same interactions with one rating of 7, outside the 1-5 scale. *)
Definition ratings_with_7 : frame row :=
  ratings_frame [interaction 1 1 7; interaction 1 2 3; interaction 2 1 4;
                 interaction 2 3 2]%Q.

(** A disk with no file, and one holding the interactions only. *)
Definition empty_disk : @world demo_library :=
  @mkWorld demo_library (fun _ => None) [] false.

Definition disk_without_metadata : @world demo_library :=
  @mkWorld demo_library
    (fun p => if String.eqb p "user_item_interactions.csv"
              then Some (@Csv demo_library ratings_4) else None)
    [] false.

(** A catalogue whose second item has no description in the file. *)
Definition catalogue_with_gap : frame row :=
  mkFrame ["item_id"; "description"]%string
    [item 1 "space adventure"; mkRow 0 2 0%Q None; item 3 "romantic drama"].

(** What [save_model] dumps for [recommender_3], and a disk holding it. *)
Definition dump_3 : @model_data demo_library :=
  @mkModelData demo_library (1 # 2) tt (fun _ i => inject_Z i)
    [[1; 1 # 2; 0]; [1 # 2; 1; 0]; [0; 0; 1]]%Q catalogue_3.

Definition disk_with_model : @world demo_library :=
  written "model.joblib" dump_3 empty_disk.

(** * Properties *)

(** ** Lists *)

Lemma has_column_In (cols : list string) (c : string) :
  has_column cols c = true <-> In c cols.
Proof.
  unfold has_column. rewrite existsb_exists. split.
  - intros [x [Hx Heq]]. apply String.eqb_eq in Heq. now subst.
  - intros H. exists c. split; [assumption|apply String.eqb_refl].
Qed.

(** Joining the catalogue to a frame with the columns item_id, cf_score and
    hybrid_score brings in a column named cb_score only if the catalogue
    has one. *)
Lemma merge_columns_no_cb_score (right : list string) :
  ~ In "cb_score"%string right ->
  ~ In "cb_score"%string
      (merge_columns "item_id" ["item_id"; "cf_score"; "hybrid_score"]%string
         right).
Proof.
  intros Hnot Hin. unfold merge_columns in Hin. apply in_app_or in Hin.
  destruct Hin as [Hin|Hin].
  - simpl in Hin.
    destruct (has_column right "cf_score"), (has_column right "hybrid_score");
      simpl in Hin; intuition discriminate.
  - apply in_map_iff in Hin. destruct Hin as [c [Hc Hin]].
    apply filter_In in Hin. destruct Hin as [Hin _].
    destruct (has_column ["item_id"; "cf_score"; "hybrid_score"]%string c)
      eqn:Hleft.
    + apply has_column_In in Hleft. simpl in Hleft.
      destruct Hleft as [<-|[<-|[<-|[]]]]; simpl in Hc; discriminate.
    + subst c. contradiction.
Qed.

Lemma unique_In (x : Z) (l : list Z) : In x (unique l) <-> In x l.
Proof.
  induction l as [|y t IH]; simpl; [tauto|].
  rewrite filter_In, IH.
  destruct (Z.eqb_spec x y) as [->|Hne]; simpl; intuition congruence.
Qed.

Lemma unique_NoDup (l : list Z) : NoDup (unique l).
Proof.
  induction l as [|y t IH]; simpl; constructor.
  - rewrite filter_In. rewrite Z.eqb_refl. simpl. intros [_ H]. discriminate.
  - now apply NoDup_filter.
Qed.

Lemma mapM_ok {A B : Type} (f : A -> result B) (g : A -> B) (l : list A) :
  (forall x, In x l -> f x = Ok (g x)) -> mapM f l = Ok (map g l).
Proof.
  induction l as [|x t IH]; simpl; intros H; [reflexivity|].
  rewrite (H x (or_introl eq_refl)). simpl.
  rewrite IH by (intros y Hy; apply H; now right). reflexivity.
Qed.

Lemma mapM_inv {A B : Type} (f : A -> result B) (l : list A) (ys : list B) :
  mapM f l = Ok ys -> Forall2 (fun x y => f x = Ok y) l ys.
Proof.
  revert ys. induction l as [|x t IH]; simpl; intros ys H.
  - injection H as <-. constructor.
  - destruct (f x) as [y|e] eqn:Hx; simpl in H; [|discriminate].
    destruct (mapM f t) as [ys'|e] eqn:Ht; simpl in H; [|discriminate].
    injection H as <-. constructor; auto.
Qed.

Section SortingFacts.
Context {A : Type} (key : A -> Q).

Lemma insert_desc_perm (x : A) (l : list A) :
  Permutation (x :: l) (insert_desc key x l).
Proof.
  induction l as [|y t IH]; simpl; [reflexivity|].
  destruct (Qle_bool (key y) (key x)); [reflexivity|].
  rewrite perm_swap. now constructor.
Qed.

Lemma sort_desc_perm (l : list A) : Permutation l (sort_desc key l).
Proof.
  induction l as [|x t IH]; simpl; [constructor|].
  rewrite <- insert_desc_perm. now constructor.
Qed.

Lemma sort_desc_In (x : A) (l : list A) : In x (sort_desc key l) <-> In x l.
Proof.
  split; apply Permutation_in; [symmetry|]; apply sort_desc_perm.
Qed.

Lemma sort_desc_length (l : list A) : length (sort_desc key l) = length l.
Proof. symmetry. apply Permutation_length, sort_desc_perm. Qed.

Lemma insert_desc_sorted (x : A) (l : list A) :
  descending key l -> descending key (insert_desc key x l).
Proof.
  unfold descending.
  induction l as [|y t IH]; simpl; intros Hs.
  - constructor; constructor.
  - inversion Hs as [|? ? Ht Hall]; subst.
    destruct (Qle_bool (key y) (key x)) eqn:Hc.
    + apply Qle_bool_iff in Hc. constructor; [assumption|].
      constructor; [assumption|].
      apply Forall_impl with (2 := Hall). intros z Hz. now apply Qle_trans with (key y).
    + constructor; [now apply IH|].
      assert (Hlt : (key x <= key y)%Q).
      { destruct (Qlt_le_dec (key x) (key y)) as [Hl|Hl]; [now apply Qlt_le_weak|].
        apply Qle_bool_iff in Hl. congruence. }
      apply Forall_forall. intros z Hz.
      apply (Permutation_in _ (Permutation_sym (insert_desc_perm x t))) in Hz.
      destruct Hz as [<-|Hz]; [assumption|].
      rewrite Forall_forall in Hall. now apply Hall.
Qed.

Lemma sort_desc_sorted (l : list A) : descending key (sort_desc key l).
Proof.
  induction l as [|x t IH]; simpl; [constructor|now apply insert_desc_sorted].
Qed.

End SortingFacts.

Lemma In_firstn {A : Type} (n : nat) (l : list A) (x : A) :
  In x (firstn n l) -> In x l.
Proof.
  revert n. induction l as [|y t IH]; intros [|n]; simpl; try tauto.
  intros [H|H]; [now left|right; eauto].
Qed.

Lemma In_skipn {A : Type} (n : nat) (l : list A) (x : A) :
  In x (skipn n l) -> In x l.
Proof.
  revert l. induction n as [|n IH]; intros [|y t]; simpl; try tauto.
  intros H. right. eauto.
Qed.

Lemma filter_none {A : Type} (p : A -> bool) (l : list A) :
  (forall x, In x l -> p x = false) -> filter p l = [].
Proof.
  induction l as [|y t IH]; simpl; intros H; [reflexivity|].
  rewrite (H y (or_introl eq_refl)). apply IH. intros x Hx. apply H. now right.
Qed.

Lemma slice_incl {A : Type} (a b : Z) (l : list A) (x : A) :
  In x (slice a b l) -> In x l.
Proof.
  unfold slice. intros H. apply In_firstn in H. now apply In_skipn in H.
Qed.

Lemma head_length {A : Type} (n : Z) (l : list A) :
  0 <= n -> Z.of_nat (length (head n l)) <= n.
Proof.
  intros Hn. unfold head, slice, slice_bound. simpl.
  destruct (n <? 0) eqn:Hlt; [lia|].
  rewrite length_firstn. simpl. lia.
Qed.

Lemma head_0 {A : Type} (l : list A) : head 0 l = [].
Proof.
  unfold head, slice, slice_bound. simpl. now rewrite Z.sub_diag.
Qed.

Lemma head_nil {A : Type} (n : Z) : head n (@nil A) = [].
Proof. unfold head, slice. simpl. now rewrite firstn_nil. Qed.

Lemma sorted_firstn {A : Type} (R : A -> A -> Prop) (n : nat) (l : list A) :
  StronglySorted R l -> StronglySorted R (firstn n l).
Proof.
  revert n. induction l as [|x t IH]; intros [|n] Hs; simpl; try constructor.
  - inversion Hs; subst. now apply IH.
  - inversion Hs as [|? ? _ Hall]; subst.
    apply Forall_forall. intros y Hy. apply In_firstn in Hy.
    rewrite Forall_forall in Hall. now apply Hall.
Qed.

Lemma sorted_skipn {A : Type} (R : A -> A -> Prop) (n : nat) (l : list A) :
  StronglySorted R l -> StronglySorted R (skipn n l).
Proof.
  revert l. induction n as [|n IH]; intros [|x t] Hs; simpl; auto.
  inversion Hs; subst. now apply IH.
Qed.

Lemma slice_sorted {A : Type} (R : A -> A -> Prop) (a b : Z) (l : list A) :
  StronglySorted R l -> StronglySorted R (slice a b l).
Proof. intros Hs. unfold slice. now apply sorted_firstn, sorted_skipn. Qed.

(** ** The three blocks of [recommend_items] *)

Lemma rows_of_key_In (k : Z) (v : Q) (l : list (Z * Q)) :
  In v (rows_of_key k l) <-> In (k, v) l.
Proof.
  unfold rows_of_key. rewrite in_map_iff. split.
  - intros [[k' v'] [Hv Hin]]. apply filter_In in Hin. simpl in *.
    destruct Hin as [Hin Hk]. apply Z.eqb_eq in Hk. now subst.
  - intros Hin. exists (k, v). split; [reflexivity|].
    apply filter_In. simpl. split; [assumption|apply Z.eqb_refl].
Qed.

Lemma rows_of_key_nil (k : Z) (l : list (Z * Q)) :
  rows_of_key k l = [] -> ~ In k (map fst l).
Proof.
  intros Hnil Hin. apply in_map_iff in Hin. destruct Hin as [[k' v] [Hk Hin]].
  simpl in Hk. subst k'. apply rows_of_key_In in Hin. rewrite Hnil in Hin.
  exact Hin.
Qed.

(** A row of the outer join carries the score of a left row with its key,
    or has no left score and then its key is a key of the right frame
    only. *)
Lemma merge_outer_left (left right : list (Z * Q)) (k : Z) (c b : option Q) :
  In (k, c, b) (merge_outer left right) ->
  match c with
  | Some v => In (k, v) left
  | None => ~ In k (map fst left) /\ In k (map fst right)
  end.
Proof.
  unfold merge_outer. rewrite in_flat_map. intros [k' [_ Hin]].
  destruct (rows_of_key k' left) as [|l0 ls] eqn:Hl.
  - apply in_map_iff in Hin. destruct Hin as [r [Heq Hr]].
    injection Heq as -> <- <-. split; [now apply rows_of_key_nil|].
    apply rows_of_key_In in Hr. apply in_map_iff. now exists (k, r).
  - destruct (rows_of_key k' right) as [|r0 rs] eqn:Hr.
    + apply in_map_iff in Hin. destruct Hin as [l [Heq Hin]].
      injection Heq as -> <- <-. apply rows_of_key_In. now rewrite Hl.
    + apply in_flat_map in Hin. destruct Hin as [l [Hlin Hin]].
      apply in_map_iff in Hin. destruct Hin as [r [Heq _]].
      injection Heq as -> <- <-. apply rows_of_key_In. now rewrite Hl.
Qed.

Section InstanceFacts.
Context {L : Library}.

Lemma cf_recs_ok (self : obj) (d : frame row) (m : svd) (user_id : Z) :
  o_item_data self = Some d -> o_cf_model self = Some m ->
  cf_recs self user_id
  = Ok (map (fun iid => (iid, est m user_id iid)) (unique (item_ids d))).
Proof.
  intros Hd Hm. unfold cf_recs. rewrite Hd. simpl.
  apply mapM_ok. intros iid _. now rewrite Hm.
Qed.

Lemma cf_recs_inv (self : obj) (user_id : Z) (cf : list (Z * Q)) :
  cf_recs self user_id = Ok cf ->
  exists d, o_item_data self = Some d /\
    map fst cf = unique (item_ids d) /\
    forall k v, In (k, v) cf ->
      exists m, o_cf_model self = Some m /\ v = est m user_id k.
Proof.
  unfold cf_recs. destruct (o_item_data self) as [d|] eqn:Hd; simpl; [|discriminate].
  intros H. exists d. split; [reflexivity|].
  apply mapM_inv in H. fold (item_ids d) in H.
  induction H as [|iid p ids ps Hp _ IH]; simpl.
  - split; [reflexivity|]. intros k v [].
  - destruct (o_cf_model self) as [m|] eqn:Hm; simpl in Hp; [|discriminate].
    injection Hp as <-. destruct IH as [IH1 IH2]. simpl. split; [now f_equal|].
    intros k v [Heq|Hin]; [|now apply IH2].
    injection Heq as <- <-. now exists m.
Qed.

Lemma iloc_In {A : Type} (l : list A) (indices : list nat) (picked : list A) :
  iloc l indices = Ok picked -> forall x, In x picked -> In x l.
Proof.
  unfold iloc. intros H. apply mapM_inv in H.
  induction H as [|i y idxs ys Hy _ IH]; intros x Hx; [destruct Hx|].
  destruct Hx as [<-|Hx]; [|now apply IH].
  destruct (nth_error l i) as [z|] eqn:Hz; [|discriminate].
  injection Hy as <-. now apply nth_error_In in Hz.
Qed.

Lemma iloc_ok {A : Type} (l : list A) (indices : list nat) :
  (forall i, In i indices -> (i < length l)%nat) ->
  exists picked, iloc l indices = Ok picked /\ length picked = length indices.
Proof.
  unfold iloc. induction indices as [|i t IH]; intros H; simpl.
  - now exists [].
  - destruct (nth_error l i) as [x|] eqn:Hx.
    + destruct IH as [ps [Hps Hlen]]; [intros j Hj; apply H; now right|].
      rewrite Hps. simpl. exists (x :: ps). simpl. now rewrite Hlen.
    + apply nth_error_None in Hx. specialize (H i (or_introl eq_refl)). lia.
Qed.

(** The candidates of the content-based block are items of the catalogue. *)
Lemma cb_recs_keys (self : obj) (item_id : option Z) (n : Z) (cb : list (Z * Q)) :
  cb_recs self item_id n = Ok cb ->
  cb = [] \/
  exists d, o_item_data self = Some d /\
    forall k, In k (map fst cb) -> In k (item_ids d).
Proof.
  unfold cb_recs. destruct item_id as [item_id|]; [|intros H; injection H as <-; now left].
  destruct (o_item_data self) as [d|] eqn:Hd; simpl; [|discriminate].
  destruct (index_of d item_id) as [|idx _]; simpl; [discriminate|].
  destruct (o_cosine_sim self) as [sim|]; simpl; [|discriminate].
  destruct (nth_error sim idx) as [sim_row|]; simpl; [|discriminate].
  destruct (iloc (rows d) _) as [picked|] eqn:Hp; simpl; [|discriminate].
  intros H. injection H as <-. right. exists d. split; [reflexivity|].
  intros k Hk. apply in_map_iff in Hk. destruct Hk as [[k' v] [Hk Hin]].
  simpl in Hk. subst k'. apply in_combine_l in Hin.
  apply in_map_iff in Hin. destruct Hin as [r [<- Hr]].
  apply in_map. eapply iloc_In; eassumption.
Qed.

Lemma enumerate_In {A : Type} (l : list A) (i : nat) (x : A) :
  In (i, x) (enumerate l) <-> nth_error l i = Some x.
Proof.
  assert (G : forall (start : nat),
    In (i, x) (combine (seq start (length l)) l) <->
    (start <= i)%nat /\ nth_error l (i - start) = Some x).
  { induction l as [|y t IH]; intros start; simpl.
    - split; [tauto|]. intros [_ H]. destruct (i - start)%nat; discriminate.
    - rewrite IH. split.
      + intros [Heq|[Hle Hn]].
        * injection Heq as <- <-. rewrite Nat.sub_diag. simpl. auto.
        * split; [lia|]. replace (i - start)%nat with (S (i - S start)) by lia.
          exact Hn.
      + intros [Hle Hn]. destruct (i - start)%nat as [|j] eqn:Hj.
        * left. simpl in Hn. injection Hn as <-. f_equal. lia.
        * right. split; [lia|]. simpl in Hn.
          replace (i - S start)%nat with j by lia. exact Hn. }
  unfold enumerate. rewrite (G 0%nat). rewrite Nat.sub_0_r.
  split; [tauto|]. intros H. split; [lia|exact H].
Qed.

Lemma index_of_lt (d : frame row) (item_id : Z) (i : nat) :
  In i (index_of d item_id) ->
  exists r, nth_error (rows d) i = Some r /\ r_item_id r = item_id.
Proof.
  unfold index_of. rewrite in_map_iff. intros [[j r] [Hj Hin]].
  simpl in Hj. subst j. apply filter_In in Hin. destruct Hin as [Hin Hk].
  simpl in Hk. apply Z.eqb_eq in Hk. apply enumerate_In in Hin. eauto.
Qed.

Lemma index_of_nil (d : frame row) (item_id : Z) :
  index_of d item_id = [] <-> ~ In item_id (item_ids d).
Proof.
  split.
  - intros Hnil Hin. unfold item_ids in Hin. apply in_map_iff in Hin.
    destruct Hin as [r [Hr Hin]]. apply In_nth_error in Hin.
    destruct Hin as [i Hi].
    assert (Hx : In i (index_of d item_id)).
    { unfold index_of. apply in_map_iff. exists (i, r). split; [reflexivity|].
      apply filter_In. split; [now apply enumerate_In|].
      simpl. now apply Z.eqb_eq. }
    rewrite Hnil in Hx. exact Hx.
  - intros Hnot. destruct (index_of d item_id) as [|i t] eqn:Hi; [reflexivity|].
    exfalso. apply Hnot.
    destruct (index_of_lt d item_id i) as [r [Hr Hk]]; [rewrite Hi; now left|].
    unfold item_ids. apply in_map_iff. exists r. split; [assumption|].
    now apply nth_error_In in Hr.
Qed.

Lemma cb_recs_absent (self : obj) (d : frame row) (item_id : Z) (n : Z) :
  o_item_data self = Some d -> ~ In item_id (item_ids d) ->
  cb_recs self (Some item_id) n = Raise (IndexError "list index out of range").
Proof.
  intros Hd Hnot. unfold cb_recs. rewrite Hd. simpl.
  apply index_of_nil in Hnot. now rewrite Hnot.
Qed.

Lemma cb_recs_ok (self : obj) (d : frame row) (m : svd) (a : Q)
    (sim : list (list Q)) (item_id : Z) (n : Z) :
  ready self d m a sim -> In item_id (item_ids d) ->
  exists cb, cb_recs self (Some item_id) n = Ok cb.
Proof.
  intros (Hd & _ & _ & Hs & Hlen & Hrows) Hin.
  unfold cb_recs. rewrite Hd. simpl.
  destruct (index_of d item_id) as [|idx t] eqn:Hi.
  { apply index_of_nil in Hi. contradiction. }
  simpl. rewrite Hs. simpl.
  destruct (index_of_lt d item_id idx) as [r [Hr _]]; [rewrite Hi; now left|].
  assert (Hlt : (idx < length sim)%nat).
  { rewrite Hlen. apply nth_error_Some. congruence. }
  destruct (nth_error sim idx) as [sim_row|] eqn:Hrow;
    [|apply nth_error_None in Hrow; lia].
  simpl.
  destruct (iloc_ok (rows d)
              (map fst (slice 1 (n + 1) (sort_desc snd (enumerate sim_row)))))
    as [picked [Hp _]].
  { intros i Hi'. apply in_map_iff in Hi'. destruct Hi' as [[j v] [Hj Hin']].
    simpl in Hj. subst j. apply slice_incl in Hin'.
    apply sort_desc_In in Hin'. apply enumerate_In in Hin'.
    rewrite Forall_forall in Hrows.
    rewrite <- (Hrows sim_row) by (now apply nth_error_In in Hrow).
    apply nth_error_Some. congruence. }
  rewrite Hp. simpl. eauto.
Qed.

(** What the blend writes in each line, by the shape of the content-based
    frame. *)
Lemma combine_recs_blend (self : obj) (cf cb : list (Z * Q)) (fr : frame scores) :
  combine_recs self cf cb = Ok fr -> cb <> [] ->
  exists a, o_alpha self = Some a /\
    columns fr = ["item_id"; "cf_score"; "cb_score"; "hybrid_score"]%string /\
    forall s, In s (rows fr) ->
      In (s_item_id s, cf_score s, cb_score s) (merge_outer cf cb) /\
      hybrid_score s
      = (a * fillna (cf_score s) + (1 - a) * fillna (cb_score s))%Q.
Proof.
  unfold combine_recs. destruct cb as [|c0 cb']; [congruence|].
  destruct (o_alpha self) as [a|]; simpl; [|discriminate].
  intros H _. injection H as <-. exists a. repeat split; simpl in *.
  - apply in_map_iff in H. destruct H as [[[k c] b] [<- Hin]]. exact Hin.
  - apply in_map_iff in H. destruct H as [[[k c] b] [<- Hin]]. reflexivity.
Qed.

Lemma combine_recs_cf_only (self : obj) (cf : list (Z * Q)) (fr : frame scores) :
  combine_recs self cf [] = Ok fr ->
  columns fr = ["item_id"; "cf_score"; "hybrid_score"]%string /\
  forall s, In s (rows fr) ->
    In (s_item_id s, hybrid_score s) cf /\
    cf_score s = Some (hybrid_score s) /\ cb_score s = None.
Proof.
  unfold combine_recs. intros H. injection H as <-. simpl. split; [reflexivity|].
  intros s Hs. apply in_map_iff in Hs. destruct Hs as [[k v] [<- Hin]].
  simpl. auto.
Qed.

Lemma combine_recs_ok (self : obj) (a : Q) (cf cb : list (Z * Q)) :
  o_alpha self = Some a -> exists fr, combine_recs self cf cb = Ok fr.
Proof.
  intros Ha. unfold combine_recs. rewrite Ha. destruct cb; simpl; eauto.
Qed.

Lemma merge_item_data_In (left : frame scores) (d : frame row) (s : scores)
    (r : row) :
  In (s, r) (rows (merge_item_data left d)) <->
  In s (rows left) /\ In r (rows d) /\ r_item_id r = s_item_id s.
Proof.
  unfold merge_item_data. simpl. rewrite in_flat_map. split.
  - intros [s' [Hs Hin]]. apply in_map_iff in Hin.
    destruct Hin as [r' [Heq Hr]]. injection Heq as -> ->.
    apply filter_In in Hr. destruct Hr as [Hr Hk]. apply Z.eqb_eq in Hk. auto.
  - intros (Hs & Hr & Hk). exists s. split; [assumption|].
    apply in_map. apply filter_In. split; [assumption|now apply Z.eqb_eq].
Qed.

(** [recommend_items] succeeds exactly when its blocks do, and then returns
    the ranked blend joined with the catalogue. *)
Lemma recommend_items_inv (self : obj) (user_id : Z) (item_id : option Z)
    (n : Z) (out : frame (scores * row)) :
  recommend_items self user_id item_id n = Ok out ->
  exists cf cb fr d,
    cf_recs self user_id = Ok cf /\ cb_recs self item_id n = Ok cb /\
    combine_recs self cf cb = Ok fr /\ o_item_data self = Some d /\
    out = merge_item_data
            (mkFrame (columns fr) (head n (sort_desc hybrid_score (rows fr)))) d.
Proof.
  unfold recommend_items.
  destruct (cf_recs self user_id) as [cf|] eqn:Hcf; simpl; [|discriminate].
  destruct (cb_recs self item_id n) as [cb|] eqn:Hcb; simpl; [|discriminate].
  destruct (combine_recs self cf cb) as [fr|] eqn:Hfr; simpl; [|discriminate].
  destruct (o_item_data self) as [d|] eqn:Hd; simpl; [|discriminate].
  intros H. injection H as <-. exists cf, cb, fr, d. repeat split; assumption.
Qed.

(** Every returned line is a line of the blend. *)
Lemma returned_line (fr : frame scores) (d : frame row) (n : Z) (s : scores)
    (r : row) :
  In (s, r) (rows (merge_item_data
     (mkFrame (columns fr) (head n (sort_desc hybrid_score (rows fr)))) d)) ->
  In s (rows fr).
Proof.
  intros H. apply merge_item_data_In in H. destruct H as [H _]. simpl in H.
  apply slice_incl in H. now apply sort_desc_In in H.
Qed.

Lemma recommend_items_ok (self : obj) (d : frame row) (m : svd) (a : Q)
    (sim : list (list Q)) (user_id : Z) (item_id : option Z) (n : Z) :
  ready self d m a sim ->
  (forall i, item_id = Some i -> In i (item_ids d)) ->
  exists out, recommend_items self user_id item_id n = Ok out.
Proof.
  intros Hr Hseed. pose proof Hr as (Hd & Hm & Ha & _).
  unfold recommend_items. rewrite (cf_recs_ok self d m user_id Hd Hm). simpl.
  assert (Hcb : exists cb, cb_recs self item_id n = Ok cb).
  { destruct item_id as [i|]; [|now exists []].
    eapply cb_recs_ok; eauto. }
  destruct Hcb as [cb ->]. simpl.
  destruct (combine_recs_ok self a
              (map (fun iid => (iid, est m user_id iid)) (unique (item_ids d)))
              cb Ha) as [fr ->].
  simpl. rewrite Hd. simpl. eauto.
Qed.

Lemma filter_key_length (d : list row) (k : Z) :
  NoDup (map r_item_id d) ->
  (length (filter (fun r => Z.eqb (r_item_id r) k) d) <= 1)%nat.
Proof.
  induction d as [|r t IH]; simpl; intros Hnd; [lia|].
  inversion Hnd as [|? ? Hnot Hnd']; subst.
  destruct (Z.eqb_spec (r_item_id r) k) as [Hk|Hk]; [|now apply IH].
  simpl. replace (filter (fun r0 => r_item_id r0 =? k) t) with (@nil row); [simpl; lia|].
  symmetry. apply filter_none.
  intros x Hx. apply Z.eqb_neq. intros Hxk. apply Hnot.
  rewrite Hk, <- Hxk. now apply in_map.
Qed.

Lemma merge_item_data_length (left : frame scores) (d : frame row) :
  NoDup (item_ids d) ->
  (length (rows (merge_item_data left d)) <= length (rows left))%nat.
Proof.
  intros Hnd. unfold merge_item_data. simpl.
  induction (rows left) as [|s t IH]; simpl; [lia|].
  rewrite length_app, length_map.
  pose proof (filter_key_length (rows d) (s_item_id s) Hnd). lia.
Qed.

Lemma merge_item_data_descending (left : frame scores) (d : frame row) :
  descending hybrid_score (rows left) ->
  descending (fun p => hybrid_score (fst p)) (rows (merge_item_data left d)).
Proof.
  unfold merge_item_data, descending. simpl.
  induction (rows left) as [|s t IH]; simpl; intros Hs; [constructor|].
  inversion Hs as [|? ? Ht Hall]; subst. specialize (IH Ht).
  induction (filter (fun r => r_item_id r =? s_item_id s) (rows d))
    as [|r rs IHr]; simpl; [exact IH|].
  constructor; [exact IHr|].
  apply Forall_app. split.
  - apply Forall_forall. intros [s' r'] Hin. apply in_map_iff in Hin.
    destruct Hin as [r'' [Heq _]]. injection Heq as <- _. simpl. apply Qle_refl.
  - apply Forall_forall. intros [s' r'] Hin. apply in_flat_map in Hin.
    destruct Hin as [s'' [Hs'' Hin]]. apply in_map_iff in Hin.
    destruct Hin as [r'' [Heq _]]. injection Heq as <- _. simpl.
    rewrite Forall_forall in Hall. now apply Hall.
Qed.

(** The ranked frame: descending by [hybrid_score] before and after the
    catalogue columns are joined in. *)
Lemma ranked_descending (fr : frame scores) (d : frame row) (n : Z) :
  descending (fun p => hybrid_score (fst p))
    (rows (merge_item_data
       (mkFrame (columns fr) (head n (sort_desc hybrid_score (rows fr)))) d)).
Proof.
  apply merge_item_data_descending. simpl.
  apply slice_sorted, sort_desc_sorted.
Qed.

End InstanceFacts.

(** ** The content-similarity lookup (lines 113-120) *)

Lemma map_fst_combine {A B : Type} (a : list A) (b : list B) :
  length a = length b -> map fst (combine a b) = a.
Proof.
  revert b. induction a as [|x a IH]; intros [|y b] H; simpl in *;
    try discriminate; [reflexivity|].
  f_equal. apply IH. now injection H.
Qed.

Lemma map_snd_combine {A B : Type} (a : list A) (b : list B) :
  length a = length b -> map snd (combine a b) = b.
Proof.
  revert b. induction a as [|x a IH]; intros [|y b] H; simpl in *;
    try discriminate; [reflexivity|].
  f_equal. apply IH. now injection H.
Qed.

Lemma nth_error_lt {A : Type} (l : list A) (i : nat) (x : A) :
  nth_error l i = Some x -> (i < length l)%nat.
Proof. intros H. apply nth_error_Some. congruence. Qed.

Lemma enumerate_positions {A : Type} (l : list A) :
  map fst (enumerate l) = seq 0 (length l).
Proof. unfold enumerate. apply map_fst_combine. apply length_seq. Qed.

Lemma enumerate_length {A : Type} (l : list A) :
  length (enumerate l) = length l.
Proof.
  rewrite <- (length_map fst), enumerate_positions. apply length_seq.
Qed.

Lemma descending_map {A : Type} (key : A -> Q) (l : list A) :
  descending key l -> StronglySorted (fun a b => (b <= a)%Q) (map key l).
Proof.
  unfold descending. induction 1 as [|x t Ht IH Hall]; simpl; constructor.
  - exact IH.
  - apply Forall_forall. intros q Hq. apply in_map_iff in Hq.
    destruct Hq as [y [<- Hy]]. rewrite Forall_forall in Hall. now apply Hall.
Qed.

Lemma slice_tail_length {A : Type} (n : Z) (l : list A) :
  0 <= n -> l <> [] ->
  Z.of_nat (length (slice 1 (n + 1) l)) = Z.min n (Z.of_nat (length l) - 1).
Proof.
  intros Hn Hne. unfold slice, slice_bound.
  assert (Hlen : 1 <= Z.of_nat (length l)).
  { destruct l; [congruence|simpl length; lia]. }
  replace (1 <? 0) with false by reflexivity.
  replace (n + 1 <? 0) with false by (symmetry; apply Z.ltb_ge; lia).
  rewrite length_firstn, length_skipn. lia.
Qed.

Lemma slice_tail_eq {A : Type} (n : Z) (x : A) (l : list A) :
  0 <= n ->
  slice 1 (n + 1) (x :: l) = firstn (Z.to_nat (Z.min n (Z.of_nat (length l)))) l.
Proof.
  intros Hn. unfold slice, slice_bound.
  replace (1 <? 0) with false by reflexivity.
  replace (n + 1 <? 0) with false by (symmetry; apply Z.ltb_ge; lia).
  replace (Z.to_nat (Z.min 1 (Z.of_nat (length (x :: l))))) with 1%nat
    by (simpl length; lia).
  replace (Z.to_nat (Z.min (n + 1) (Z.of_nat (length (x :: l)))
                     - Z.min 1 (Z.of_nat (length (x :: l)))))
    with (Z.to_nat (Z.min n (Z.of_nat (length l))))
    by (simpl length; lia).
  reflexivity.
Qed.

Lemma slice_tail_incl {A : Type} (n : Z) (x : A) (l : list A) (y : A) :
  In y (slice 1 (n + 1) (x :: l)) -> In y l.
Proof.
  unfold slice, slice_bound. intros H. apply In_firstn in H.
  replace (1 <? 0) with false in H by reflexivity.
  replace (Z.to_nat (Z.min 1 (Z.of_nat (length (x :: l))))) with 1%nat in H
    by (simpl length; lia).
  exact H.
Qed.

(** Python's sort is stable: on an enumerated row, equal scores stay in the
    order of their positions. *)
Lemma insert_desc_stable (x : nat * Q) (l : list (nat * Q)) :
  StronglySorted by_score_then_position l ->
  Forall (fun y => (fst x < fst y)%nat) l ->
  StronglySorted by_score_then_position (insert_desc snd x l).
Proof.
  induction l as [|y t IH]; simpl; intros Hs Hpos.
  - constructor; constructor.
  - inversion Hs as [|? ? Ht Hall]; subst.
    inversion Hpos as [|? ? Hxy Hpos']; subst.
    destruct (Qle_bool (snd y) (snd x)) eqn:Hc.
    + apply Qle_bool_iff in Hc. constructor; [assumption|].
      assert (Hbelow : forall z, In z (y :: t) -> (snd z <= snd x)%Q).
      { intros z [<-|Hz]; [assumption|].
        rewrite Forall_forall in Hall. destruct (Hall z Hz) as [Hlt|[Heq _]].
        - apply Qlt_le_weak. now apply Qlt_le_trans with (snd y).
        - now rewrite Heq. }
      apply Forall_forall. intros z Hz.
      assert (Hxz : (fst x < fst z)%nat)
        by (rewrite Forall_forall in Hpos; now apply Hpos).
      destruct (Qlt_le_dec (snd z) (snd x)) as [Hlt|Hge]; [now left|].
      right. split; [|assumption]. apply Qle_antisym; [now apply Hbelow|assumption].
    + assert (Hlt : (snd x < snd y)%Q).
      { destruct (Qlt_le_dec (snd x) (snd y)) as [Hl|Hl]; [assumption|].
        apply Qle_bool_iff in Hl. congruence. }
      constructor; [now apply IH|].
      apply Forall_forall. intros z Hz.
      apply (Permutation_in _ (Permutation_sym (insert_desc_perm snd x t))) in Hz.
      destruct Hz as [<-|Hz]; [now left|].
      rewrite Forall_forall in Hall. now apply Hall.
Qed.

Lemma sort_desc_stable (l : list (nat * Q)) :
  StronglySorted (fun p q => (fst p < fst q)%nat) l ->
  StronglySorted by_score_then_position (sort_desc snd l).
Proof.
  induction 1 as [|x t Ht IH Hall]; simpl; [constructor|].
  apply insert_desc_stable; [exact IH|].
  apply Forall_forall. intros y Hy. apply sort_desc_In in Hy.
  rewrite Forall_forall in Hall. now apply Hall.
Qed.

Lemma combine_seq_increasing {A : Type} (l : list A) (start : nat) :
  StronglySorted (fun p q : nat * A => (fst p < fst q)%nat)
    (combine (seq start (length l)) l).
Proof.
  revert start. induction l as [|x t IH]; intros start; simpl; constructor.
  - apply IH.
  - apply Forall_forall. intros [j y] Hin. apply in_combine_l in Hin.
    apply in_seq in Hin. simpl. lia.
Qed.

Lemma sorted_row_stable (sim_row : list Q) (n : Z) :
  StronglySorted by_score_then_position
    (slice 1 (n + 1) (sort_desc snd (enumerate sim_row))).
Proof.
  apply slice_sorted, sort_desc_stable. apply combine_seq_increasing.
Qed.

(** When one entry of the row is strictly above all the others, the sort
    puts it first, and nowhere else. *)
Lemma sort_desc_strict_max (l : list (nat * Q)) (i : nat) (v : Q) :
  NoDup (map fst l) -> In (i, v) l ->
  (forall j w, In (j, w) l -> j <> i -> (w < v)%Q) ->
  exists rest, sort_desc snd l = (i, v) :: rest /\ ~ In i (map fst rest).
Proof.
  intros Hnd Hin Hmax.
  pose proof (sort_desc_perm snd l) as Hperm.
  pose proof (sort_desc_sorted snd l) as Hsorted.
  assert (Hnd' : NoDup (map fst (sort_desc snd l))).
  { apply Permutation_NoDup with (map fst l); [now apply Permutation_map|assumption]. }
  assert (Hin' : In (i, v) (sort_desc snd l)) by now apply sort_desc_In.
  destruct (sort_desc snd l) as [|[j w] rest]; [destruct Hin'|].
  simpl in Hnd'. inversion Hnd' as [|? ? Hnot Hnd'']; subst.
  destruct (Nat.eq_dec j i) as [->|Hne].
  - destruct Hin' as [Heq|Hrest].
    + injection Heq as ->. now exists rest.
    + exfalso. apply Hnot. apply in_map_iff. now exists (i, v).
  - exfalso. destruct Hin' as [Heq|Hrest]; [injection Heq as -> _; congruence|].
    assert (Hjw : In (j, w) l)
      by (apply (Permutation_in _ (Permutation_sym Hperm)); now left).
    pose proof (Hmax j w Hjw Hne) as Hlt.
    unfold descending in Hsorted. inversion Hsorted as [|? ? _ Hall]; subst.
    rewrite Forall_forall in Hall. specialize (Hall _ Hrest). simpl in Hall.
    now apply Qlt_not_le in Hlt.
Qed.

Section Similar.
Context {L : Library}.

(** How the block runs on an instance that is [ready]: the row of the first
    catalogue line carrying the seed, sorted and sliced, then looked up in
    the catalogue. *)
Lemma cb_recs_run (self : obj) (d : frame row) (m : svd) (a : Q)
    (sim : list (list Q)) (item_id : Z) (n : Z) :
  ready self d m a sim -> In item_id (item_ids d) ->
  exists idx r sim_row picked,
    index_of d item_id <> [] /\
    List.hd_error (index_of d item_id) = Some idx /\
    nth_error (rows d) idx = Some r /\ r_item_id r = item_id /\
    nth_error sim idx = Some sim_row /\
    length sim_row = length (rows d) /\
    Forall2 (fun i x => nth_error (rows d) i = Some x)
      (map fst (slice 1 (n + 1) (sort_desc snd (enumerate sim_row)))) picked /\
    cb_recs self (Some item_id) n
    = Ok (combine (map r_item_id picked)
            (map snd (slice 1 (n + 1) (sort_desc snd (enumerate sim_row))))).
Proof.
  intros (Hd & _ & _ & Hs & Hlen & Hrows) Hin.
  unfold cb_recs. rewrite Hd. simpl.
  destruct (index_of d item_id) as [|idx t] eqn:Hi.
  { apply index_of_nil in Hi. contradiction. }
  simpl. rewrite Hs. simpl.
  destruct (index_of_lt d item_id idx) as [r [Hr Hk]]; [rewrite Hi; now left|].
  assert (Hlt : (idx < length sim)%nat).
  { rewrite Hlen. apply nth_error_Some. congruence. }
  destruct (nth_error sim idx) as [sim_row|] eqn:Hrow;
    [|apply nth_error_None in Hrow; lia].
  simpl.
  assert (Hwidth : length sim_row = length (rows d)).
  { rewrite Forall_forall in Hrows. apply Hrows. now apply nth_error_In in Hrow. }
  destruct (iloc_ok (rows d)
              (map fst (slice 1 (n + 1) (sort_desc snd (enumerate sim_row)))))
    as [picked [Hp _]].
  { intros i Hi'. apply in_map_iff in Hi'. destruct Hi' as [[j v] [Hj Hin']].
    simpl in Hj. subst j. apply slice_incl in Hin'.
    apply sort_desc_In in Hin'. apply enumerate_In in Hin'.
    rewrite <- Hwidth. apply nth_error_Some. congruence. }
  rewrite Hp. simpl. exists idx, r, sim_row, picked.
  repeat split; try assumption; try reflexivity; try discriminate.
  unfold iloc in Hp. apply mapM_inv in Hp.
  apply Forall2_impl with (2 := Hp). intros i x Hx.
  destruct (nth_error (rows d) i); [now injection Hx as ->|discriminate].
Qed.

(** X1.  For a seed item of the catalogue and [n >= 0], the content-based
    block returns exactly min(n, catalogue size - 1) candidates, in
    descending order of similarity. *)
Lemma cb_recs_length_order (self : obj) (d : frame row) (m : svd) (a : Q)
    (sim : list (list Q)) (item_id : Z) (n : Z) :
  ready self d m a sim -> In item_id (item_ids d) -> 0 <= n ->
  exists cb, cb_recs self (Some item_id) n = Ok cb /\
    Z.of_nat (length cb) = Z.min n (Z.of_nat (length (rows d)) - 1) /\
    StronglySorted (fun x y => (y <= x)%Q) (map snd cb).
Proof.
  intros Hr Hin Hn.
  destruct (cb_recs_run self d m a sim item_id n Hr Hin)
    as (idx & r & sim_row & picked & _ & _ & Hidx & _ & _ & Hwidth & Hp & Hcb).
  eexists. split; [exact Hcb|].
  pose proof (Forall2_length Hp) as Hlen. rewrite length_map in Hlen.
  assert (Hsame : length (map r_item_id picked)
                  = length (map snd (slice 1 (n + 1)
                                       (sort_desc snd (enumerate sim_row))))).
  { now rewrite !length_map. }
  split.
  - rewrite length_combine, Hsame, Nat.min_id, length_map.
    rewrite slice_tail_length; [|assumption|].
    + now rewrite sort_desc_length, enumerate_length, Hwidth.
    + intros Hnil. apply (f_equal (@length _)) in Hnil.
      rewrite sort_desc_length, enumerate_length, Hwidth in Hnil.
      apply nth_error_lt in Hidx. simpl in Hnil. lia.
  - rewrite (map_snd_combine _ _ Hsame). apply descending_map.
    apply slice_sorted, sort_desc_sorted.
Qed.

(** X3.  The content-based block leaves the seed item out of its
    candidates when the catalogue's item ids are unique and the seed's
    similarity to itself is strictly above every other entry of its row. *)
Lemma cb_recs_excludes_seed (self : obj) (d : frame row) (m : svd) (a : Q)
    (sim : list (list Q)) (item_id : Z) (n : Z) (idx : nat) (r : row)
    (sim_row : list Q) (v : Q) :
  ready self d m a sim -> NoDup (item_ids d) ->
  nth_error (rows d) idx = Some r -> r_item_id r = item_id ->
  nth_error sim idx = Some sim_row -> nth_error sim_row idx = Some v ->
  (forall j w, j <> idx -> nth_error sim_row j = Some w -> (w < v)%Q) ->
  exists cb, cb_recs self (Some item_id) n = Ok cb /\
    ~ In item_id (map fst cb).
Proof.
  intros Hr Hnd Hidx Hk Hrow Hself Hmax.
  assert (Hin : In item_id (item_ids d)).
  { unfold item_ids. apply in_map_iff. exists r. split; [assumption|].
    now apply nth_error_In in Hidx. }
  assert (Hpos : forall i x, nth_error (rows d) i = Some x ->
                   r_item_id x = item_id -> i = idx).
  { intros i x Hi Hx. unfold item_ids in Hnd.
    apply (proj1 (NoDup_nth_error _) Hnd).
    - rewrite length_map. now apply nth_error_lt in Hi.
    - rewrite !nth_error_map, Hi, Hidx. simpl. congruence. }
  destruct (cb_recs_run self d m a sim item_id n Hr Hin)
    as (idx' & r' & sim_row' & picked & _ & _ & Hidx' & Hk' & Hrow' & _ & Hp & Hcb).
  assert (idx' = idx) by (eapply Hpos; eassumption). subst idx'.
  assert (sim_row' = sim_row) by congruence. subst sim_row'.
  eexists. split; [exact Hcb|].
  destruct (sort_desc_strict_max (enumerate sim_row) idx v)
    as [rest [Hsort Hrest]].
  - rewrite enumerate_positions. apply seq_NoDup.
  - now apply enumerate_In.
  - intros j w Hjw Hne. apply enumerate_In in Hjw. now apply Hmax with j.
  - rewrite Hsort in Hp, Hcb |- *.
    intros Hmem. apply in_map_iff in Hmem. destruct Hmem as [[k q] [Hkq Hmem]].
    simpl in Hkq. subst k. apply in_combine_l in Hmem.
    apply in_map_iff in Hmem. destruct Hmem as [x [Hx Hxin]].
    assert (Hfrom : exists i,
              In i (map fst (slice 1 (n + 1) ((idx, v) :: rest))) /\
              nth_error (rows d) i = Some x).
    { clear - Hp Hxin. induction Hp as [|i y li lp Hy _ IH]; [destruct Hxin|].
      destruct Hxin as [<-|Hxin].
      - exists i. split; [now left|assumption].
      - destruct (IH Hxin) as [i' [Hi' Hn']]. exists i'. split; [now right|assumption]. }
    destruct Hfrom as [i [Hi Hnth]].
    assert (i = idx) by (eapply Hpos; eassumption). subst i.
    apply Hrest. apply in_map_iff in Hi. destruct Hi as [[i' q'] [Hi' Hslice]].
    simpl in Hi'. subst i'. apply slice_tail_incl in Hslice.
    apply in_map_iff. now exists (idx, q').
Qed.

End Similar.

(** ** The blend and the ranking *)

Section Recommend.
Context {L : Library}.

Lemma recommendations_sorted_aux (self : obj) (user_id : Z)
    (item_id : option Z) (n : Z) (out : frame (scores * row)) :
  recommend_items self user_id item_id n = Ok out ->
  descending (fun p => hybrid_score (fst p)) (rows out).
Proof.
  intros H. apply recommend_items_inv in H.
  destruct H as (cf & cb & fr & d & _ & _ & _ & _ & ->).
  apply ranked_descending.
Qed.

(** C1 (as amended).  When the content-based block yields at least one
    candidate, every returned item has
    hybrid_score = alpha * cf_score + (1 - alpha) * cb_score, a missing
    score counting as 0.  When it yields none (no seed item, or no candidate
    left by the slice), the returned items carry no cb_score and their
    hybrid_score is the cf_score itself, whatever alpha is. *)
Theorem hybrid_score_by_branch (self : obj) (user_id : Z) (item_id : option Z)
    (n : Z) (out : frame (scores * row)) :
  recommend_items self user_id item_id n = Ok out ->
  exists cb, cb_recs self item_id n = Ok cb /\
    (cb <> [] ->
       exists a, o_alpha self = Some a /\
         forall s r, In (s, r) (rows out) ->
           hybrid_score s
           = (a * fillna (cf_score s) + (1 - a) * fillna (cb_score s))%Q) /\
    (cb = [] ->
       forall s r, In (s, r) (rows out) ->
         cf_score s = Some (hybrid_score s) /\ cb_score s = None).
Proof.
  intros H. apply recommend_items_inv in H.
  destruct H as (cf & cb & fr & d & Hcf & Hcb & Hfr & Hd & ->).
  exists cb. split; [assumption|]. split.
  - intros Hne. destruct (combine_recs_blend self cf cb fr Hfr Hne)
      as (a & Ha & _ & Hrows).
    exists a. split; [assumption|]. intros s r Hin.
    apply returned_line in Hin. now apply Hrows.
  - intros ->. destruct (combine_recs_cf_only self cf fr Hfr) as [_ Hrows].
    intros s r Hin. apply returned_line in Hin. now apply Hrows.
Qed.

(** C4 (as amended).  The code has no check of the seed item and no
    not-found error of its own.  On an instance holding its catalogue,
    model, weight and a similarity matrix of the catalogue's size, a seed
    item absent from the catalogue makes [recommend_items] raise Python's
    built-in [IndexError("list index out of range")], which comes from
    taking element 0 of the empty list of matching rows, for every user and
    every [n]; and this is the only failure of [recommend_items] on such an
    instance: whenever it raises, the exception is that one and the seed is
    absent from the catalogue. *)
Theorem absent_seed_raises (self : obj) (d : frame row) (m : svd) (a : Q)
    (sim : list (list Q)) (user_id : Z) (n : Z) :
  ready self d m a sim ->
  (forall item_id, ~ In item_id (item_ids d) ->
     recommend_items self user_id (Some item_id) n
     = Raise (IndexError "list index out of range")) /\
  (forall seed e, recommend_items self user_id seed n = Raise e ->
     e = IndexError "list index out of range" /\
     exists item_id, seed = Some item_id /\ ~ In item_id (item_ids d)).
Proof.
  intros Hr. pose proof Hr as (Hd & Hm & _).
  assert (Habs : forall item_id, ~ In item_id (item_ids d) ->
     recommend_items self user_id (Some item_id) n
     = Raise (IndexError "list index out of range")).
  { intros item_id Hnot. unfold recommend_items.
    rewrite (cf_recs_ok self d m user_id Hd Hm).
    now rewrite (cb_recs_absent self d item_id n Hd Hnot). }
  split; [exact Habs|].
  intros seed e He.
  destruct seed as [i|].
  - destruct (in_dec Z.eq_dec i (item_ids d)) as [Hin|Hnot].
    + destruct (recommend_items_ok self d m a sim user_id (Some i) n Hr)
        as [out Hout]; [intros j Hj; now injection Hj as <-|].
      congruence.
    + rewrite (Habs i Hnot) in He. injection He as <-. eauto.
  - destruct (recommend_items_ok self d m a sim user_id None n Hr)
      as [out Hout]; [intros j Hj; discriminate|].
    congruence.
Qed.

(** C9 (as amended).  The returned list is sorted descending by
    hybrid_score; nothing is said of the order of items with equal
    hybrid_score. *)
Theorem recommendations_descending (self : obj) (user_id : Z)
    (item_id : option Z) (n : Z) (out : frame (scores * row)) :
  recommend_items self user_id item_id n = Ok out ->
  descending (fun p => hybrid_score (fst p)) (rows out).
Proof.
  apply recommendations_sorted_aux.
Qed.

(** C10.  With a seed item of the catalogue, the content-based candidates
    are among the items the collaborative loop scores, no row of the outer
    join lacks its cf_score, and every returned row's cf_score is the
    model's prediction for the user and that item. *)
Theorem cf_score_always_present (self : obj) (d : frame row) (m : svd) (a : Q)
    (sim : list (list Q)) (user_id : Z) (item_id : Z) (n : Z) :
  ready self d m a sim -> In item_id (item_ids d) ->
  exists cf cb out,
    cf_recs self user_id = Ok cf /\
    cb_recs self (Some item_id) n = Ok cb /\
    incl (map fst cb) (map fst cf) /\
    (forall k c b, In (k, c, b) (merge_outer cf cb) ->
       c = Some (est m user_id k)) /\
    recommend_items self user_id (Some item_id) n = Ok out /\
    (forall s r, In (s, r) (rows out) ->
       cf_score s = Some (est m user_id (s_item_id s))).
Proof.
  intros Hr Hin. pose proof Hr as (Hd & Hm & _).
  destruct (recommend_items_ok self d m a sim user_id (Some item_id) n Hr)
    as [out Hout]; [intros j Hj; now injection Hj as <-|].
  pose proof (recommend_items_inv _ _ _ _ _ Hout)
    as (cf & cb & fr & d' & Hcf & Hcb & Hfr & Hd' & Heq).
  assert (d' = d) by congruence. subst d'.
  exists cf, cb, out.
  pose proof (cf_recs_ok self d m user_id Hd Hm) as Hcf'.
  rewrite Hcf in Hcf'. injection Hcf' as Hcfeq.
  assert (Hkeys : map fst cf = unique (item_ids d)).
  { rewrite Hcfeq, map_map. simpl. apply map_id. }
  assert (Hval : forall k v, In (k, v) cf -> v = est m user_id k).
  { intros k v Hkv. rewrite Hcfeq in Hkv. apply in_map_iff in Hkv.
    destruct Hkv as [iid [Heq' _]]. now injection Heq' as <- <-. }
  assert (Hincl : incl (map fst cb) (map fst cf)).
  { intros k Hk. rewrite Hkeys. apply unique_In.
    destruct (cb_recs_keys self (Some item_id) n cb Hcb) as [->|[d' [Hd'' Hsub]]].
    - destruct Hk.
    - assert (d' = d) by congruence. subst d'. now apply Hsub. }
  assert (Hjoin : forall k c b, In (k, c, b) (merge_outer cf cb) ->
            c = Some (est m user_id k)).
  { intros k c b Hrow. apply merge_outer_left in Hrow. destruct c as [v|].
    - f_equal. now apply Hval.
    - destruct Hrow as [Hnot Hright]. exfalso. apply Hnot. now apply Hincl. }
  repeat split; try assumption.
  intros s r Hsr. rewrite Heq in Hsr. apply returned_line in Hsr.
  destruct cb as [|c0 cb'].
  - destruct (combine_recs_cf_only self cf fr Hfr) as [_ Hrows].
    destruct (Hrows s Hsr) as (Hc & -> & _). f_equal. now apply Hval.
  - destruct (combine_recs_blend self cf (c0 :: cb') fr Hfr) as (a' & _ & _ & Hrows);
      [discriminate|].
    destruct (Hrows s Hsr) as [Hrow _]. now apply Hjoin in Hrow.
Qed.

(** C5 (as amended).  On a catalogue whose item ids are unique,
    [recommend_items] with no seed item and n = 5 returns at most 5 items.
    The columns of the result are item_id, cf_score and hybrid_score joined
    with the catalogue's own columns: it has a cb_score column only if the
    catalogue file brings one of that name.  No item carries a cb_score;
    each item's cf_score and hybrid_score are the model's prediction, and
    the items are ordered by cf_score descending. *)
Theorem no_seed_top5 (self : obj) (d : frame row) (m : svd) (user_id : Z) :
  o_item_data self = Some d -> o_cf_model self = Some m ->
  NoDup (item_ids d) ->
  exists out, recommend_items self user_id None 5 = Ok out /\
    (length (rows out) <= 5)%nat /\
    columns out
    = merge_columns "item_id" ["item_id"; "cf_score"; "hybrid_score"]%string
        (columns d) /\
    (~ In "cb_score"%string (columns d) ->
     ~ In "cb_score"%string (columns out)) /\
    (forall s r, In (s, r) (rows out) ->
       cb_score s = None /\
       cf_score s = Some (est m user_id (s_item_id s)) /\
       hybrid_score s = est m user_id (s_item_id s)) /\
    descending (fun p => fillna (cf_score (fst p))) (rows out).
Proof.
  intros Hd Hm Hnd.
  assert (Hout : exists out, recommend_items self user_id None 5 = Ok out).
  { unfold recommend_items. rewrite (cf_recs_ok self d m user_id Hd Hm).
    simpl. rewrite Hd. simpl. eauto. }
  destruct Hout as [out Hout]. exists out. split; [assumption|].
  pose proof (recommend_items_inv _ _ _ _ _ Hout)
    as (cf & cb & fr & d' & Hcf & Hcb & Hfr & Hd' & Heq).
  assert (d' = d) by congruence. subst d'.
  simpl in Hcb. injection Hcb as <-.
  destruct (combine_recs_cf_only self cf fr Hfr) as [Hcols Hrows].
  rewrite (cf_recs_ok self d m user_id Hd Hm) in Hcf. injection Hcf as Hcf.
  assert (Hline : forall s r, In (s, r) (rows out) ->
       cb_score s = None /\
       cf_score s = Some (est m user_id (s_item_id s)) /\
       hybrid_score s = est m user_id (s_item_id s)).
  { intros s r Hsr. rewrite Heq in Hsr. apply returned_line in Hsr.
    destruct (Hrows s Hsr) as (Hin & Hc & Hb). rewrite <- Hcf in Hin.
    apply in_map_iff in Hin. destruct Hin as [iid [Hpair _]].
    injection Hpair as -> Hh. rewrite Hc, <- Hh. auto. }
  assert (Hcolumns : columns out
            = merge_columns "item_id"
                ["item_id"; "cf_score"; "hybrid_score"]%string (columns d)).
  { rewrite Heq. simpl. now rewrite Hcols. }
  split; [|split; [exact Hcolumns|split; [|split; [exact Hline|]]]].
  - rewrite Heq.
    etransitivity; [apply merge_item_data_length; assumption|]. cbn [rows].
    pose proof (head_length 5 (sort_desc hybrid_score (rows fr))). lia.
  - intros Hnot. rewrite Hcolumns. now apply merge_columns_no_cb_score.
  - pose proof (recommendations_sorted_aux self user_id None 5 out Hout) as Hs.
    unfold descending in *.
    revert Hline Hs. generalize (rows out). intros l Hline Hs.
    induction Hs as [|[s r] t Ht IH Hall]; constructor.
    + apply IH. intros s' r' Hin. apply Hline with r'. now right.
    + apply Forall_forall. intros [s' r'] Hin. rewrite Forall_forall in Hall.
      specialize (Hall _ Hin). simpl in *.
      destruct (Hline s r (or_introl eq_refl)) as (_ & -> & <-).
      destruct (Hline s' r' (or_intror Hin)) as (_ & -> & <-).
      exact Hall.
Qed.

End Recommend.

Section RecommendLength.
Context {L : Library}.

(** C8 (as amended).  On a catalogue with unique item ids, and with no seed
    item or a seed item of the catalogue, [recommend_items] returns without
    raising; the result has at most [n] rows when [n >= 0], none when
    [n = 0], and none when the catalogue is empty. *)
Theorem recommend_items_length (self : obj) (d : frame row) (m : svd) (a : Q)
    (sim : list (list Q)) (user_id : Z) (item_id : option Z) (n : Z) :
  ready self d m a sim -> NoDup (item_ids d) ->
  (forall i, item_id = Some i -> In i (item_ids d)) ->
  exists out, recommend_items self user_id item_id n = Ok out /\
    (0 <= n -> Z.of_nat (length (rows out)) <= n) /\
    (n = 0 -> rows out = []) /\
    (rows d = [] -> rows out = []).
Proof.
  intros Hr Hnd Hseed. pose proof Hr as (Hd & _).
  destruct (recommend_items_ok self d m a sim user_id item_id n Hr Hseed)
    as [out Hout].
  exists out. split; [assumption|].
  pose proof (recommend_items_inv _ _ _ _ _ Hout)
    as (cf & cb & fr & d' & _ & _ & _ & Hd' & Heq).
  assert (d' = d) by congruence. subst d'.
  assert (Hlen : 0 <= n -> Z.of_nat (length (rows out)) <= n).
  { intros Hn. rewrite Heq.
    pose proof (merge_item_data_length
      (mkFrame (columns fr) (head n (sort_desc hybrid_score (rows fr)))) d Hnd).
    cbn [rows] in H.
    pose proof (head_length n (sort_desc hybrid_score (rows fr)) Hn). lia. }
  split; [exact Hlen|]. split.
  - intros ->. specialize (Hlen (Z.le_refl 0)).
    destruct (rows out); [reflexivity|simpl in Hlen; lia].
  - intros Hempty. destruct (rows out) as [|[s r] t] eqn:Hrows; [reflexivity|].
    assert (Hin : In (s, r) (rows out)) by (rewrite Hrows; now left).
    rewrite Heq in Hin. apply merge_item_data_In in Hin.
    destruct Hin as (_ & Hin & _). rewrite Hempty in Hin. destruct Hin.
Qed.

End RecommendLength.

(** ** Runs on concrete inputs *)

Lemma ready_recommender_3 :
  ready recommender_3 catalogue_3 (fun _ i => inject_Z i) (1 # 2)
    [[1; 1 # 2; 0]; [1 # 2; 1; 0]; [0; 0; 1]]%Q.
Proof.
  repeat split; repeat constructor.
Qed.

Lemma ready_recommender_21 :
  ready recommender_21 catalogue_21 (fun _ _ => 3%Q) (1 # 2) (identity_matrix 2).
Proof.
  repeat split; repeat constructor.
Qed.

Lemma NoDup_catalogue_3 : NoDup (item_ids catalogue_3).
Proof.
  repeat constructor; simpl; intuition discriminate.
Qed.

Lemma hybrid_score_by_branch_witness :
  exists out,
    recommend_items recommender_3 7 (Some 1) 2 = Ok out /\
    exists cb, cb_recs recommender_3 (Some 1) 2 = Ok cb /\
      (cb <> [] ->
         exists a, o_alpha recommender_3 = Some a /\
           forall s r, In (s, r) (rows out) ->
             hybrid_score s
             = (a * fillna (cf_score s) + (1 - a) * fillna (cb_score s))%Q) /\
      (cb = [] ->
         forall s r, In (s, r) (rows out) ->
           cf_score s = Some (hybrid_score s) /\ cb_score s = None).
Proof.
  eexists. split; [vm_compute; reflexivity|].
  apply (hybrid_score_by_branch recommender_3 7 (Some 1) 2).
  vm_compute. reflexivity.
Defined.

(** C1, refuted as stated: with alpha = 1/2 and no seed item, the returned
    items have hybrid_score = cf_score = 3, not 1/2 * 3 + 1/2 * 0. *)
Lemma blend_not_applied_without_seed :
  exists out s r,
    recommend_items recommender_21 42 None 5 = Ok out /\
    o_alpha recommender_21 = Some (1 # 2) /\
    In (s, r) (rows out) /\
    ~ (hybrid_score s
       == (1 # 2) * fillna (cf_score s) + (1 - (1 # 2)) * fillna (cb_score s))%Q.
Proof.
  eexists. eexists. eexists. split; [vm_compute; reflexivity|].
  split; [reflexivity|]. split; [left; reflexivity|].
  vm_compute. discriminate.
Qed.

Lemma absent_seed_raises_witness :
  ready recommender_3 catalogue_3 (fun _ i => inject_Z i) (1 # 2)
    [[1; 1 # 2; 0]; [1 # 2; 1; 0]; [0; 0; 1]]%Q /\
  ~ In 9 (item_ids catalogue_3) /\
  recommend_items recommender_3 7 (Some 9) 2
  = Raise (IndexError "list index out of range").
Proof.
  assert (Hnot : ~ In 9 (item_ids catalogue_3))
    by (simpl; intuition discriminate).
  split; [exact ready_recommender_3|]. split; [exact Hnot|].
  exact (proj1 (absent_seed_raises recommender_3 catalogue_3 _ _ _ 7 2
                  ready_recommender_3) 9 Hnot).
Defined.

(** C4, refuted as stated: for the seed item 9, absent from the catalogue,
    the call fails with the built-in [IndexError] of list indexing, not with
    an error of a kind named NotFoundError. *)
Lemma absent_seed_error_is_a_plain_IndexError :
  exists e,
    recommend_items recommender_3 7 (Some 9) 2 = Raise e /\
    e = IndexError "list index out of range" /\
    class_name e = "IndexError"%string /\
    class_name e <> "NotFoundError"%string.
Proof.
  eexists. split; [vm_compute; reflexivity|].
  split; [reflexivity|]. split; [reflexivity|]. discriminate.
Qed.

Lemma recommendations_descending_witness :
  exists out,
    recommend_items recommender_3 7 (Some 1) 2 = Ok out /\
    descending (fun p => hybrid_score (fst p)) (rows out).
Proof.
  eexists. split; [vm_compute; reflexivity|].
  apply (recommendations_descending recommender_3 7 (Some 1) 2).
  vm_compute. reflexivity.
Defined.

(** C9, refuted as stated: the catalogue lists item 2 before item 1, both
    are predicted 3, and the result lists item 2 before item 1. *)
Lemma equal_scores_keep_catalogue_order :
  exists out s1 r1 s2 r2,
    recommend_items recommender_21 42 None 2 = Ok out /\
    rows out = [(s1, r1); (s2, r2)] /\
    (hybrid_score s1 == hybrid_score s2)%Q /\
    s_item_id s2 < s_item_id s1.
Proof.
  do 5 eexists. split; [vm_compute; reflexivity|].
  split; [reflexivity|]. split; [reflexivity|]. reflexivity.
Qed.

Lemma cf_score_always_present_witness :
  ready recommender_3 catalogue_3 (fun _ i => inject_Z i) (1 # 2)
    [[1; 1 # 2; 0]; [1 # 2; 1; 0]; [0; 0; 1]]%Q /\
  In 1 (item_ids catalogue_3) /\
  exists cf cb out,
    cf_recs recommender_3 7 = Ok cf /\
    cb_recs recommender_3 (Some 1) 2 = Ok cb /\
    incl (map fst cb) (map fst cf) /\
    (forall k c b, In (k, c, b) (merge_outer cf cb) ->
       c = Some (@est demo_library (fun _ i => inject_Z i) 7 k)) /\
    recommend_items recommender_3 7 (Some 1) 2 = Ok out /\
    (forall s r, In (s, r) (rows out) ->
       cf_score s
       = Some (@est demo_library (fun _ i => inject_Z i) 7 (s_item_id s))).
Proof.
  assert (Hin : In 1 (item_ids catalogue_3)) by (simpl; auto).
  split; [exact ready_recommender_3|]. split; [exact Hin|].
  exact (cf_score_always_present recommender_3 catalogue_3 _ _ _ 7 1 2
           ready_recommender_3 Hin).
Defined.

Lemma no_seed_top5_witness :
  NoDup (item_ids catalogue_3) /\
  exists out, recommend_items recommender_3 42 None 5 = Ok out /\
    (length (rows out) <= 5)%nat /\
    columns out
    = merge_columns "item_id" ["item_id"; "cf_score"; "hybrid_score"]%string
        (columns catalogue_3) /\
    (~ In "cb_score"%string (columns catalogue_3) ->
     ~ In "cb_score"%string (columns out)) /\
    (forall s r, In (s, r) (rows out) ->
       cb_score s = None /\
       cf_score s
       = Some (@est demo_library (fun _ i => inject_Z i) 42 (s_item_id s)) /\
       hybrid_score s
       = @est demo_library (fun _ i => inject_Z i) 42 (s_item_id s)) /\
    descending (fun p => fillna (cf_score (fst p))) (rows out).
Proof.
  split; [exact NoDup_catalogue_3|].
  exact (no_seed_top5 recommender_3 catalogue_3 (fun _ i => inject_Z i) 42
           eq_refl eq_refl NoDup_catalogue_3).
Defined.

(** C5, refuted as stated: for user 42 with no seed item and n = 5 the
    result has no cb_score column, and its first item has no cb_score, so
    none equal to 0. *)
Lemma no_seed_rows_carry_no_cb_score :
  exists out s r,
    recommend_items recommender_21 42 None 5 = Ok out /\
    has_column (columns out) "cb_score" = false /\
    In (s, r) (rows out) /\
    ~ (exists q, cb_score s = Some q /\ (q == 0)%Q).
Proof.
  do 3 eexists. split; [vm_compute; reflexivity|].
  split; [reflexivity|]. split; [left; reflexivity|].
  intros [q [Hq _]]. discriminate.
Qed.

Lemma recommend_items_length_witness :
  ready recommender_3 catalogue_3 (fun _ i => inject_Z i) (1 # 2)
    [[1; 1 # 2; 0]; [1 # 2; 1; 0]; [0; 0; 1]]%Q /\
  NoDup (item_ids catalogue_3) /\
  exists out, recommend_items recommender_3 7 (Some 1) 2 = Ok out /\
    (0 <= 2 -> Z.of_nat (length (rows out)) <= 2) /\
    (2 = 0 -> rows out = []) /\
    (rows catalogue_3 = [] -> rows out = []).
Proof.
  split; [exact ready_recommender_3|]. split; [exact NoDup_catalogue_3|].
  apply (recommend_items_length recommender_3 catalogue_3 _ _ _ 7 (Some 1) 2
           ready_recommender_3 NoDup_catalogue_3).
  intros i Hi. injection Hi as <-. simpl. auto.
Defined.

(** C8, refuted as stated: with n = -1, [head(-1)] drops the last row only,
    and the call returns one item although n <= 0. *)
Lemma negative_n_returns_items :
  exists out,
    recommend_items recommender_21 42 None (-1) = Ok out /\
    length (rows out) = 1%nat /\
    rows out <> [] /\
    ~ (Z.of_nat (length (rows out)) <= -1).
Proof.
  eexists. split; [vm_compute; reflexivity|].
  split; [reflexivity|]. split; [discriminate|]. simpl. lia.
Qed.

(** The example of the specification: item 2 shares terms with item 1 and
    item 3 does not, so the one item similar to item 1 is item 2. *)
Example similar_to_item_1 :
  cb_recs recommender_3 (Some 1) 1 = Ok [(2, (1 # 2)%Q)].
Proof. vm_compute. reflexivity. Qed.

(** C3, at the failing input: the second item of the catalogue has an empty
    description, so its row of the similarity matrix is all zeros; the
    stable sort leaves item 1 at the head of the row, the slice drops it,
    and the one similar item returned for item 2 is item 2 itself. *)
Theorem similar_returns_the_queried_item :
  cb_recs recommender_blank (Some 2) 1 = Ok [(2, 0%Q)].
Proof. vm_compute. reflexivity. Qed.

(** ** Construction *)

(** One step of a method on a state whose shape is known. *)
Ltac run_method :=
  cbn [self env fs log logging_configured set_alpha set_logger set_interactions
       set_item_data set_cf_model set_tfidf set_tfidf_matrix set_cosine_sim
       o_alpha o_logger o_interactions o_item_data o_cf_model o_tfidf
       o_tfidf_matrix o_cosine_sim new_obj getattr negb].

Ltac run_method_in H :=
  cbn [self env fs log logging_configured set_alpha set_logger set_interactions
       set_item_data set_cf_model set_tfidf set_tfidf_matrix set_cosine_sim
       o_alpha o_logger o_interactions o_item_data o_cf_model o_tfidf
       o_tfidf_matrix o_cosine_sim new_obj getattr negb] in H.

Section Construction.
Context {L : Library}.

Lemma alpha_in_range (alpha : Q) :
  alpha_out_of_range alpha = false <-> (0 <= alpha /\ alpha <= 1)%Q.
Proof.
  unfold alpha_out_of_range. rewrite negb_false_iff, andb_true_iff.
  now rewrite !Qle_bool_iff.
Qed.

Lemma init_rejects (interactions_path metadata_path : string) (alpha : Q)
    (st : state) :
  alpha_out_of_range alpha = true ->
  __init__ interactions_path metadata_path alpha st
  = (Raise (ValueError "Alpha must be between 0 and 1"), st).
Proof.
  intros H. unfold __init__. now rewrite H.
Qed.

Lemma init_ok (interactions_path metadata_path : string) (alpha : Q)
    (w : world) (fi fm : frame row) (fitted : svd) (v : Q)
    (tf : vectorizer * tfidf_matrix_t) (sim : list (list Q)) :
  alpha_out_of_range alpha = false ->
  inputs_ok w interactions_path metadata_path fi fm ->
  libraries_ok fi fm fitted v tf sim ->
  HybridRecommender interactions_path metadata_path alpha w
  = (Ok (constructed alpha fi fm fitted tf sim),
     mkWorld (fs w) (construction_log v ++ log w) true).
Proof.
  intros Ha (Hfi & Hfm & Hci & Hcm)
         (split & preds & Hsplit & Hfit & Htest & Hrmse & Htf & Hsim).
  unfold HybridRecommender, __init__. rewrite Ha.
  unfold try_reraise, _load_data, _init_collaborative_filtering,
    _init_content_based_filtering, _calculate_similarity_matrix,
    _setup_logging, logger_info, bindM, path_exists, read_csv, attr, setattr,
    call, emit, raise.
  repeat progress (run_method;
    rewrite ?Hfi, ?Hfm, ?Hci, ?Hcm, ?Hsplit, ?Hfit, ?Htest, ?Hrmse, ?Htf, ?Hsim).
  reflexivity.
Qed.

(** Conversely, a construction that returns went through every check and
    every library call. *)
Lemma constructed_inv (interactions_path metadata_path : string) (alpha : Q)
    (w w' : world) (o : obj) :
  HybridRecommender interactions_path metadata_path alpha w = (Ok o, w') ->
  exists fi fm fitted v tf sim,
    alpha_out_of_range alpha = false /\
    inputs_ok w interactions_path metadata_path fi fm /\
    libraries_ok fi fm fitted v tf sim /\
    o = constructed alpha fi fm fitted tf sim.
Proof.
  intros H. unfold HybridRecommender, __init__ in H.
  destruct (alpha_out_of_range alpha) eqn:Ha; [discriminate|].
  unfold try_reraise, _load_data, _init_collaborative_filtering,
    _init_content_based_filtering, _calculate_similarity_matrix,
    _setup_logging, logger_info, logger_error, bindM, path_exists, read_csv,
    attr, setattr, call, emit, raise in H.
  run_method_in H.
  destruct (fs w interactions_path) as [[fi|?]|] eqn:Hfi;
    destruct (fs w metadata_path) as [[fm|?]|] eqn:Hfm;
    repeat progress (run_method_in H; rewrite ?Hfi, ?Hfm in H); try discriminate.
  destruct (forallb (has_column (columns fi)) required_interaction_cols) eqn:Hci;
    repeat progress (run_method_in H; rewrite ?Hfi, ?Hfm, ?Hci in H);
    try discriminate.
  destruct (forallb (has_column (columns fm)) required_metadata_cols) eqn:Hcm;
    repeat progress (run_method_in H; rewrite ?Hfi, ?Hfm, ?Hci, ?Hcm in H);
    try discriminate.
  destruct (load_and_split (ratings_of fi)) as [split|] eqn:Hsplit;
    repeat progress (run_method_in H); try discriminate.
  destruct (fit SVD (fst split)) as [fitted|] eqn:Hfit;
    repeat progress (run_method_in H); try discriminate.
  destruct (test fitted (snd split)) as [preds|] eqn:Htest;
    repeat progress (run_method_in H); try discriminate.
  destruct (rmse preds) as [v|] eqn:Hrmse;
    repeat progress (run_method_in H); try discriminate.
  destruct (fit_transform TfidfVectorizer
              (map r_description (rows (fillna_description fm))))
    as [tf|] eqn:Htf;
    repeat progress (run_method_in H); try discriminate.
  destruct (linear_kernel (snd tf) (snd tf)) as [sim|] eqn:Hsim;
    repeat progress (run_method_in H); try discriminate.
  injection H as <- _.
  exists fi, fm, fitted, v, tf, sim.
  split; [reflexivity|]. split; [now repeat split|].
  split; [|reflexivity]. exists split, preds. now repeat split.
Qed.

End Construction.

Section ConstructionClaims.
Context {L : Library}.

(** C7.  With alpha = -0.1 or alpha = 1.1, [__init__] raises
    [ValueError("Alpha must be between 0 and 1")] and leaves the state it
    started from untouched: no attribute is set on the object, nothing is
    logged, the logging module is not configured.  With alpha = 0 or
    alpha = 1 the check passes, and construction returns the instance, with
    that alpha, as soon as the files and the library calls are in order. *)
Theorem alpha_checked_before_anything
    (interactions_path metadata_path : string) :
  (forall st,
     __init__ interactions_path metadata_path (- (1 # 10)) st
     = (Raise (ValueError "Alpha must be between 0 and 1"), st)) /\
  (forall st,
     __init__ interactions_path metadata_path (11 # 10) st
     = (Raise (ValueError "Alpha must be between 0 and 1"), st)) /\
  (forall w,
     HybridRecommender interactions_path metadata_path (- (1 # 10)) w
     = (Raise (ValueError "Alpha must be between 0 and 1"), w)) /\
  (forall w,
     HybridRecommender interactions_path metadata_path (11 # 10) w
     = (Raise (ValueError "Alpha must be between 0 and 1"), w)) /\
  (forall alpha w fi fm fitted v tf sim,
     alpha = 0%Q \/ alpha = 1%Q ->
     inputs_ok w interactions_path metadata_path fi fm ->
     libraries_ok fi fm fitted v tf sim ->
     HybridRecommender interactions_path metadata_path alpha w
     = (Ok (constructed alpha fi fm fitted tf sim),
        mkWorld (fs w) (construction_log v ++ log w) true)).
Proof.
  split; [|split; [|split; [|split]]].
  - intros st. now apply init_rejects.
  - intros st. now apply init_rejects.
  - intros w. unfold HybridRecommender. now rewrite init_rejects.
  - intros w. unfold HybridRecommender. now rewrite init_rejects.
  - intros alpha w fi fm fitted v tf sim Ha Hin Hlib.
    apply init_ok with (v := v); try assumption.
    destruct Ha as [-> | ->]; reflexivity.
Qed.

(** C6 (as amended).  Construction checks neither the rating values nor the
    number of interactions.  With alpha in range, both files present and
    their required columns present, the ratings reach the library as they
    were read: construction returns whenever the library calls succeed on
    them, and an exception of the rating loader comes out of the
    constructor unchanged. *)
Theorem ratings_reach_the_library_unchecked
    (interactions_path metadata_path : string) (alpha : Q) (w : world)
    (fi fm : frame row) :
  alpha_out_of_range alpha = false ->
  inputs_ok w interactions_path metadata_path fi fm ->
  (forall fitted v tf sim,
     libraries_ok fi fm fitted v tf sim ->
     HybridRecommender interactions_path metadata_path alpha w
     = (Ok (constructed alpha fi fm fitted tf sim),
        mkWorld (fs w) (construction_log v ++ log w) true)) /\
  (forall e,
     load_and_split (ratings_of fi) = Raise e ->
     fst (HybridRecommender interactions_path metadata_path alpha w) = Raise e).
Proof.
  intros Ha Hin. split.
  - intros fitted v tf sim Hlib. now apply init_ok with (v := v).
  - intros e He. destruct Hin as (Hfi & Hfm & Hci & Hcm).
    unfold HybridRecommender, __init__. rewrite Ha.
    unfold try_reraise, _load_data, _init_collaborative_filtering,
      _init_content_based_filtering, _calculate_similarity_matrix,
      _setup_logging, logger_info, logger_error, bindM, path_exists, read_csv,
      attr, setattr, call, emit, raise.
    repeat progress (run_method; rewrite ?Hfi, ?Hfm, ?Hci, ?Hcm, ?He).
    reflexivity.
Qed.

End ConstructionClaims.

(** ** Persistence *)

Section Persistence.
Context {L : Library}.

(** The round trip of an instance returned by the constructor:
    [save_model(path)] succeeds, and [load_model(path)] on the resulting
    disk returns an instance on which [recommend_items] gives, for every
    user, seed item and n, the very result it gives on the saved instance.
    Loading calls no library: it leaves the world as it found it and hands
    back the saved collaborative model. *)
Theorem save_then_load (interactions_path metadata_path : string) (alpha : Q)
    (w0 w1 : world) (recommender : obj) (path : string) (w : world) :
  HybridRecommender interactions_path metadata_path alpha w0
  = (Ok recommender, w1) ->
  exists w' loaded,
    save_model path (mkState recommender w) = (Ok tt, mkState recommender w') /\
    load_model path w' = (Ok loaded, w') /\
    o_cf_model loaded = o_cf_model recommender /\
    forall user_id item_id n,
      recommend_items loaded user_id item_id n
      = recommend_items recommender user_id item_id n.
Proof.
  intros H. apply constructed_inv in H.
  destruct H as (fi & fm & fitted & v & tf & sim & _ & _ & _ & ->).
  eexists. eexists. split; [|split; [|split]].
  - unfold save_model, logger_info, joblib_dump, bindM, attr, emit, constructed.
    run_method. reflexivity.
  - unfold load_model, joblib_load. cbn [fs]. rewrite String.eqb_refl.
    reflexivity.
  - reflexivity.
  - intros user_id item_id n. reflexivity.
Qed.

End Persistence.

Lemma inputs_ok_demo :
  inputs_ok (disk ratings_4 catalogue_3) "user_item_interactions.csv"
    "item_metadata.csv" ratings_4 catalogue_3.
Proof. repeat split. Qed.

Lemma libraries_ok_demo :
  @libraries_ok demo_library ratings_4 catalogue_3 (fun _ _ => 3%Q) 1%Q
    (tt, 3%nat) (identity_matrix 3).
Proof.
  eexists. eexists. repeat split.
Qed.

Lemma alpha_checked_before_anything_witness :
  inputs_ok (disk ratings_4 catalogue_3) "user_item_interactions.csv"
    "item_metadata.csv" ratings_4 catalogue_3 /\
  @libraries_ok demo_library ratings_4 catalogue_3 (fun _ _ => 3%Q) 1%Q
    (tt, 3%nat) (identity_matrix 3) /\
  HybridRecommender "user_item_interactions.csv" "item_metadata.csv" 1%Q
    (disk ratings_4 catalogue_3)
  = (Ok (@constructed demo_library 1%Q ratings_4 catalogue_3 (fun _ _ => 3%Q)
           (tt, 3%nat) (identity_matrix 3)),
     mkWorld (fs (disk ratings_4 catalogue_3))
       (construction_log 1%Q ++ log (disk ratings_4 catalogue_3)) true).
Proof.
  split; [exact inputs_ok_demo|]. split; [exact libraries_ok_demo|].
  exact (proj2 (proj2 (proj2 (proj2
           (@alpha_checked_before_anything demo_library
              "user_item_interactions.csv" "item_metadata.csv"))))
           1%Q _ _ _ _ _ _ _ (or_intror eq_refl) inputs_ok_demo
           libraries_ok_demo).
Defined.

Lemma ratings_reach_the_library_unchecked_witness :
  alpha_out_of_range (1 # 2) = false /\
  inputs_ok (disk ratings_4 catalogue_3) "user_item_interactions.csv"
    "item_metadata.csv" ratings_4 catalogue_3 /\
  HybridRecommender "user_item_interactions.csv" "item_metadata.csv" (1 # 2)
    (disk ratings_4 catalogue_3)
  = (Ok (@constructed demo_library (1 # 2) ratings_4 catalogue_3
           (fun _ _ => 3%Q) (tt, 3%nat) (identity_matrix 3)),
     mkWorld (fs (disk ratings_4 catalogue_3))
       (construction_log 1%Q ++ log (disk ratings_4 catalogue_3)) true).
Proof.
  split; [reflexivity|]. split; [exact inputs_ok_demo|].
  exact (proj1 (@ratings_reach_the_library_unchecked demo_library
                  "user_item_interactions.csv" "item_metadata.csv" (1 # 2)
                  (disk ratings_4 catalogue_3) ratings_4 catalogue_3
                  eq_refl inputs_ok_demo)
           _ _ _ _ libraries_ok_demo).
Defined.

(** C6, refuted as stated: one interaction carries the rating 7, outside
    the 1-5 scale, and construction returns an instance. *)
Lemma out_of_range_rating_is_accepted :
  exists r recommender w',
    In r (rows ratings_with_7) /\ ~ (r_rating r <= 5)%Q /\
    HybridRecommender "user_item_interactions.csv" "item_metadata.csv" (1 # 2)
      (disk ratings_with_7 catalogue_3)
    = (Ok recommender, w').
Proof.
  exists (interaction 1 1 7). eexists. eexists.
  split; [left; reflexivity|]. split; [vm_compute; intros H; apply H; reflexivity|].
  apply (@init_ok demo_library) with (fi := ratings_with_7) (fm := catalogue_3)
    (fitted := fun _ _ => 3%Q) (v := 1%Q) (tf := (tt, 3%nat))
    (sim := identity_matrix 3).
  - reflexivity.
  - repeat split.
  - eexists. eexists. repeat split.
Qed.

Lemma save_then_load_witness :
  exists recommender w1,
    HybridRecommender "user_item_interactions.csv" "item_metadata.csv" (1 # 2)
      (disk ratings_4 catalogue_3)
    = (Ok recommender, w1) /\
    exists w' loaded,
      save_model "model.joblib" (mkState recommender w1)
      = (Ok tt, mkState recommender w') /\
      load_model "model.joblib" w' = (Ok loaded, w') /\
      o_cf_model loaded = o_cf_model recommender /\
      forall user_id item_id n,
        recommend_items loaded user_id item_id n
        = recommend_items recommender user_id item_id n.
Proof.
  eexists. eexists.
  assert (H : HybridRecommender "user_item_interactions.csv"
                "item_metadata.csv" (1 # 2) (disk ratings_4 catalogue_3)
              = (Ok (@constructed demo_library (1 # 2) ratings_4 catalogue_3
                       (fun _ _ => 3%Q) (tt, 3%nat) (identity_matrix 3)),
                 mkWorld (fs (disk ratings_4 catalogue_3))
                   (construction_log 1%Q ++ log (disk ratings_4 catalogue_3))
                   true)).
  { apply (@init_ok demo_library);
      [reflexivity|exact inputs_ok_demo|exact libraries_ok_demo]. }
  split; [exact H|].
  exact (@save_then_load demo_library _ _ _ _ _ _ "model.joblib" _ H).
Defined.

(** * Further properties *)

(** ** Lists, keys and joins *)

Lemma filter_all {A : Type} (p : A -> bool) (l : list A) :
  (forall x, In x l -> p x = true) -> filter p l = l.
Proof.
  induction l as [|y t IH]; simpl; intros H; [reflexivity|].
  rewrite (H y (or_introl eq_refl)). f_equal. apply IH. intros x Hx.
  apply H. now right.
Qed.

Lemma unique_NoDup_id (l : list Z) : NoDup l -> unique l = l.
Proof.
  induction 1 as [|x t Hnot _ IH]; simpl; [reflexivity|].
  rewrite IH. f_equal. apply filter_all. intros y Hy.
  apply negb_true_iff, Z.eqb_neq. intros ->. contradiction.
Qed.

Lemma filter_key_single {A : Type} (f : A -> Z) (l : list A) (k : Z) :
  NoDup (map f l) -> In k (map f l) ->
  exists x, filter (fun y => f y =? k) l = [x] /\ f x = k /\ In x l.
Proof.
  induction l as [|y t IH]; simpl; intros Hnd Hin; [destruct Hin|].
  inversion Hnd as [|? ? Hnot Hnd']; subst.
  destruct (Z.eqb_spec (f y) k) as [Hk|Hk].
  - exists y. split; [|auto]. f_equal. apply filter_none.
    intros x Hx. apply Z.eqb_neq. intros Hxk. apply Hnot.
    rewrite Hk, <- Hxk. now apply in_map.
  - destruct Hin as [Hin|Hin]; [contradiction|].
    destruct (IH Hnd' Hin) as (x & Hx & Hfx & Hxin). exists x. auto.
Qed.

Lemma filter_key_absent {A : Type} (f : A -> Z) (l : list A) (k : Z) :
  ~ In k (map f l) -> filter (fun y => f y =? k) l = [].
Proof.
  intros Hnot. apply filter_none. intros x Hx. apply Z.eqb_neq.
  intros Hk. apply Hnot. rewrite <- Hk. now apply in_map.
Qed.

Lemma insert_key_perm (x : Z) (l : list Z) :
  Permutation (x :: l) (insert_key x l).
Proof.
  induction l as [|y t IH]; simpl; [reflexivity|].
  destruct (x <=? y); [reflexivity|].
  rewrite perm_swap. now constructor.
Qed.

Lemma sort_keys_perm (l : list Z) : Permutation l (sort_keys l).
Proof.
  induction l as [|x t IH]; simpl; [constructor|].
  rewrite <- insert_key_perm. now constructor.
Qed.

Lemma NoDup_firstn {A : Type} (n : nat) (l : list A) :
  NoDup l -> NoDup (firstn n l).
Proof.
  revert n. induction l as [|x t IH]; intros [|n] Hnd; simpl; try constructor.
  - inversion Hnd; subst. intros Hin. apply In_firstn in Hin. contradiction.
  - inversion Hnd; subst. now apply IH.
Qed.

Lemma NoDup_skipn {A : Type} (n : nat) (l : list A) :
  NoDup l -> NoDup (skipn n l).
Proof.
  revert l. induction n as [|n IH]; intros [|x t] Hnd; simpl; auto.
  inversion Hnd; subst. now apply IH.
Qed.

Lemma slice_map {A B : Type} (f : A -> B) (a b : Z) (l : list A) :
  map f (slice a b l) = slice a b (map f l).
Proof.
  unfold slice. now rewrite length_map, skipn_map, firstn_map.
Qed.

Lemma NoDup_slice {A : Type} (a b : Z) (l : list A) :
  NoDup l -> NoDup (slice a b l).
Proof. intros H. unfold slice. now apply NoDup_firstn, NoDup_skipn. Qed.

(** [head(n)] keeps min(n, len) rows for [n >= 0] and max(0, len + n) rows
    for [n < 0]. *)
Lemma head_length_exact {A : Type} (n : Z) (l : list A) :
  Z.of_nat (length (head n l))
  = if n <? 0 then Z.max 0 (Z.of_nat (length l) + n)
    else Z.min n (Z.of_nat (length l)).
Proof.
  unfold head, slice, slice_bound.
  replace (0 <? 0) with false by reflexivity.
  rewrite length_firstn, length_skipn.
  destruct (n <? 0) eqn:Hn; [apply Z.ltb_lt in Hn|apply Z.ltb_ge in Hn]; lia.
Qed.

(** For [n >= 0], a row of a descending frame is kept by [head(n)] or is
    nowhere above the rows [head(n)] keeps. *)
Lemma head_cuts_sorted {A : Type} (key : A -> Q) (n : Z) (l : list A) (y : A) :
  0 <= n -> descending key l -> In y l ->
  In y (head n l) \/ (forall x, In x (head n l) -> (key y <= key x)%Q).
Proof.
  intros Hn Hs Hy. unfold head, slice, slice_bound in *.
  replace (0 <? 0) with false in * by reflexivity.
  replace (n <? 0) with false in * by (symmetry; apply Z.ltb_ge; lia).
  replace (Z.to_nat (Z.min 0 (Z.of_nat (length l)))) with 0%nat in * by lia.
  simpl skipn in *.
  set (k := Z.to_nat (Z.min n (Z.of_nat (length l)) - Z.min 0 (Z.of_nat (length l)))) in *.
  clearbody k. rewrite <- (firstn_skipn k l) in Hy. apply in_app_or in Hy.
  destruct Hy as [Hy|Hy]; [now left|right].
  clear Hn. unfold descending in Hs. revert k Hy.
  induction Hs as [|z t Ht IH Hall]; intros [|k] Hy x Hx; simpl in *;
    try contradiction.
  destruct Hx as [<-|Hx].
  - apply In_skipn in Hy. rewrite Forall_forall in Hall. now apply Hall.
  - now apply IH with k.
Qed.

Lemma rows_of_key_single (k : Z) (l : list (Z * Q)) :
  NoDup (map fst l) -> In k (map fst l) ->
  exists v, rows_of_key k l = [v].
Proof.
  intros Hnd Hin. unfold rows_of_key.
  destruct (filter_key_single fst l k Hnd Hin) as (x & Hx & _).
  rewrite Hx. now exists (snd x).
Qed.

Lemma rows_of_key_at_most_one (k : Z) (l : list (Z * Q)) :
  NoDup (map fst l) ->
  rows_of_key k l = [] \/ exists v, rows_of_key k l = [v].
Proof.
  intros Hnd. destruct (in_dec Z.eq_dec k (map fst l)) as [Hin|Hnot].
  - right. now apply rows_of_key_single.
  - left. unfold rows_of_key. now rewrite (filter_key_absent fst l k Hnot).
Qed.

(** With distinct keys on both sides and every right key on the left, the
    outer join has exactly one row for each left key. *)
Lemma merge_outer_keys (left right : list (Z * Q)) :
  NoDup (map fst left) -> NoDup (map fst right) ->
  incl (map fst right) (map fst left) ->
  Permutation (map (fun r => fst (fst r)) (merge_outer left right))
              (map fst left).
Proof.
  intros Hl Hr Hincl. unfold merge_outer.
  set (keys := sort_keys (unique (map fst left ++ map fst right))).
  assert (Hkeys : Permutation keys (map fst left)).
  { unfold keys. rewrite <- sort_keys_perm.
    apply NoDup_Permutation; [apply unique_NoDup|assumption|].
    intros k. rewrite unique_In, in_app_iff. split; [|now left].
    intros [H|H]; [assumption|now apply Hincl]. }
  rewrite <- Hkeys.
  assert (Hin : forall k, In k keys -> In k (map fst left)).
  { intros k Hk. now apply (Permutation_in _ Hkeys). }
  clearbody keys. clear Hkeys.
  induction keys as [|k t IH]; simpl; [constructor|].
  rewrite map_app.
  destruct (rows_of_key_single k left Hl (Hin k (or_introl eq_refl))) as [v ->].
  destruct (rows_of_key_at_most_one k right Hr) as [-> | [w ->]]; simpl;
    constructor; apply IH; intros k' Hk'; apply Hin; now right.
Qed.

Lemma forall2_position {A : Type} (l : list A) (positions : list nat)
    (picked : list A) (x : A) :
  Forall2 (fun i y => nth_error l i = Some y) positions picked ->
  In x picked -> exists i, In i positions /\ nth_error l i = Some x.
Proof.
  induction 1 as [|i y li lp Hy _ IH]; intros Hx; [destruct Hx|].
  destruct Hx as [<-|Hx].
  - exists i. split; [now left|assumption].
  - destruct (IH Hx) as [j [Hj Hn]]. exists j. split; [now right|assumption].
Qed.

Lemma picked_ids_NoDup (l : list row) (positions : list nat) (picked : list row) :
  Forall2 (fun i y => nth_error l i = Some y) positions picked ->
  NoDup positions -> NoDup (map r_item_id l) ->
  NoDup (map r_item_id picked).
Proof.
  intros Hp Hpos Hids.
  induction Hp as [|i y li lp Hy Hrest IH]; simpl; [constructor|].
  inversion Hpos as [|? ? Hnot Hpos']; subst.
  constructor; [|now apply IH].
  intros Hin. apply in_map_iff in Hin. destruct Hin as [x [Hxy Hx]].
  destruct (forall2_position l li lp x Hrest Hx) as [j [Hj Hnj]].
  assert (i = j); [|subst; contradiction].
  apply (proj1 (NoDup_nth_error _) Hids).
  - rewrite length_map. now apply nth_error_lt in Hy.
  - rewrite !nth_error_map, Hy, Hnj. simpl. congruence.
Qed.

Lemma iloc_positions {A : Type} (l : list A) (indices : list nat)
    (picked : list A) :
  iloc l indices = Ok picked ->
  Forall2 (fun i x => nth_error l i = Some x) indices picked.
Proof.
  unfold iloc. intros Hp. apply mapM_inv in Hp.
  apply Forall2_impl with (2 := Hp). intros i x Hx.
  destruct (nth_error l i); [now injection Hx as ->|discriminate].
Qed.

Section Ranking.
Context {L : Library}.

(** On a catalogue with unique ids, no two content-based candidates are the
    same item. *)
Lemma cb_recs_keys_NoDup (self : obj) (d : frame row) (item_id : option Z)
    (n : Z) (cb : list (Z * Q)) :
  cb_recs self item_id n = Ok cb -> o_item_data self = Some d ->
  NoDup (item_ids d) -> NoDup (map fst cb).
Proof.
  unfold cb_recs. intros H Hd Hnd.
  destruct item_id as [item_id|]; [|injection H as <-; constructor].
  rewrite Hd in H. simpl in H.
  destruct (index_of d item_id) as [|idx _]; simpl in H; [discriminate|].
  destruct (o_cosine_sim self) as [sim|]; simpl in H; [|discriminate].
  destruct (nth_error sim idx) as [sim_row|]; simpl in H; [|discriminate].
  destruct (iloc (rows d) _) as [picked|] eqn:Hp; simpl in H; [|discriminate].
  injection H as <-. apply iloc_positions in Hp.
  pose proof (Forall2_length Hp) as Hlen. rewrite length_map in Hlen.
  rewrite map_fst_combine by (now rewrite !length_map).
  apply picked_ids_NoDup with (l := rows d) (positions :=
    map fst (slice 1 (n + 1) (sort_desc snd (enumerate sim_row))));
    [assumption| |assumption].
  rewrite slice_map. apply NoDup_slice.
  apply Permutation_NoDup with (map fst (enumerate sim_row)).
  - apply Permutation_map, sort_desc_perm.
  - rewrite enumerate_positions. apply seq_NoDup.
Qed.

(** Every line of the blend is a catalogue item. *)
Lemma blend_keys_incl (self : obj) (d : frame row) (user_id : Z)
    (item_id : option Z) (n : Z) (cf cb : list (Z * Q)) (fr : frame scores) :
  o_item_data self = Some d ->
  cf_recs self user_id = Ok cf -> cb_recs self item_id n = Ok cb ->
  combine_recs self cf cb = Ok fr ->
  forall s, In s (rows fr) -> In (s_item_id s) (item_ids d).
Proof.
  intros Hd Hcf Hcb Hfr s Hs.
  destruct (cf_recs_inv self user_id cf Hcf) as (d' & Hd' & Hkeys & _).
  assert (d' = d) by congruence. subst d'.
  assert (Hleft : forall k v, In (k, v) cf -> In k (item_ids d)).
  { intros k v Hkv. apply unique_In. rewrite <- Hkeys.
    apply in_map_iff. now exists (k, v). }
  destruct cb as [|c0 cb'].
  - destruct (combine_recs_cf_only self cf fr Hfr) as [_ Hrows].
    destruct (Hrows s Hs) as (Hin & _). eapply Hleft; eassumption.
  - destruct (combine_recs_blend self cf (c0 :: cb') fr Hfr)
      as (a & _ & _ & Hrows); [discriminate|].
    destruct (Hrows s Hs) as [Hrow _]. apply merge_outer_left in Hrow.
    destruct (cf_score s) as [v|]; [eapply Hleft; eassumption|].
    destruct Hrow as [_ Hright].
    destruct (cb_recs_keys self item_id n (c0 :: cb') Hcb)
      as [Hnil|[d' [Hd'' Hsub]]]; [discriminate|].
    assert (d' = d) by congruence. subst d'. now apply Hsub.
Qed.

(** On a catalogue with unique ids the blend has exactly one line per
    catalogue item. *)
Lemma blend_keys_perm (self : obj) (d : frame row) (user_id : Z)
    (item_id : option Z) (n : Z) (cf cb : list (Z * Q)) (fr : frame scores) :
  o_item_data self = Some d -> NoDup (item_ids d) ->
  cf_recs self user_id = Ok cf -> cb_recs self item_id n = Ok cb ->
  combine_recs self cf cb = Ok fr ->
  Permutation (map s_item_id (rows fr)) (item_ids d).
Proof.
  intros Hd Hnd Hcf Hcb Hfr.
  destruct (cf_recs_inv self user_id cf Hcf) as (d' & Hd' & Hkeys & _).
  assert (d' = d) by congruence. subst d'.
  rewrite (unique_NoDup_id _ Hnd) in Hkeys.
  destruct cb as [|c0 cb'].
  - unfold combine_recs in Hfr. injection Hfr as <-. simpl.
    rewrite map_map. simpl. now rewrite <- Hkeys.
  - pose proof (cb_recs_keys_NoDup self d item_id n _ Hcb Hd Hnd) as Hcbnd.
    assert (Hincl : incl (map fst (c0 :: cb')) (map fst cf)).
    { destruct (cb_recs_keys self item_id n (c0 :: cb') Hcb)
        as [Hnil|[d' [Hd'' Hsub]]]; [discriminate|].
      assert (d' = d) by congruence. subst d'.
      intros k Hk. rewrite Hkeys. now apply Hsub. }
    unfold combine_recs in Hfr.
    destruct (o_alpha self) as [a|]; simpl in Hfr; [|discriminate].
    injection Hfr as <-. cbn [rows]. rewrite map_map.
    rewrite <- Hkeys.
    rewrite <- (merge_outer_keys cf (c0 :: cb')); [|now rewrite Hkeys|assumption|assumption].
    apply Permutation_refl'. apply map_ext. now intros [[k c] b].
Qed.

(** Joining the catalogue in keeps every ranked line once when the ids of
    the catalogue are unique and the line is a catalogue item. *)
Lemma merge_item_data_exact (left : frame scores) (d : frame row) :
  NoDup (item_ids d) ->
  (forall s, In s (rows left) -> In (s_item_id s) (item_ids d)) ->
  map fst (rows (merge_item_data left d)) = rows left.
Proof.
  intros Hnd Hin. unfold merge_item_data. cbn [rows].
  induction (rows left) as [|s t IH]; simpl; [reflexivity|].
  destruct (filter_key_single r_item_id (rows d) (s_item_id s) Hnd
              (Hin s (or_introl eq_refl))) as (r & -> & _).
  simpl. f_equal. apply IH. intros s' Hs'. apply Hin. now right.
Qed.

(** The shape of a successful call on a catalogue with unique ids. *)
Lemma ranked_shape (self : obj) (d : frame row) (m : svd) (a : Q)
    (sim : list (list Q)) (user_id : Z) (item_id : option Z) (n : Z) :
  ready self d m a sim -> NoDup (item_ids d) ->
  (forall i, item_id = Some i -> In i (item_ids d)) ->
  exists out fr,
    recommend_items self user_id item_id n = Ok out /\
    Permutation (map s_item_id (rows fr)) (item_ids d) /\
    map fst (rows out) = head n (sort_desc hybrid_score (rows fr)).
Proof.
  intros Hr Hnd Hseed. pose proof Hr as (Hd & _).
  destruct (recommend_items_ok self d m a sim user_id item_id n Hr Hseed)
    as [out Hout].
  pose proof (recommend_items_inv _ _ _ _ _ Hout)
    as (cf & cb & fr & d' & Hcf & Hcb & Hfr & Hd' & Heq).
  assert (d' = d) by congruence. subst d'.
  exists out, fr. split; [assumption|]. split.
  - eapply blend_keys_perm; eassumption.
  - rewrite Heq. apply merge_item_data_exact; [assumption|]. cbn [rows].
    intros s Hs. apply slice_incl in Hs. apply sort_desc_In in Hs.
    eapply blend_keys_incl; eassumption.
Qed.

End Ranking.

(** ** The candidates and the ranked list *)

Lemma candidates_of_positions (l : list row) (ps : list (nat * Q))
    (picked : list row) :
  Forall2 (fun i x => nth_error l i = Some x) (map fst ps) picked ->
  Forall2 (fun p c => nth_error (map r_item_id l) (fst p) = Some (fst c)
                      /\ snd c = snd p)
    ps (combine (map r_item_id picked) (map snd ps)).
Proof.
  revert picked. induction ps as [|p ps IH]; intros picked H; simpl.
  - inversion H; subst. constructor.
  - inversion H as [|i x li lp Hx Hrest]; subst. simpl. constructor.
    + simpl. rewrite nth_error_map, Hx. auto.
    + now apply IH.
Qed.

Section RankingProperties.
Context {L : Library}.

(** X2.  For a seed item of the catalogue and [n >= 0], take the row of the
    similarity matrix at the first catalogue position of the seed, and
    arrange its (position, similarity) pairs by similarity descending and,
    among equal similarities, by position ascending.  The content-based
    block drops the first pair of that arrangement and returns, in order,
    the next min(n, catalogue size - 1) pairs: each candidate is the
    catalogue item at the pair's position and carries the pair's
    similarity. *)
Theorem candidates_ties_in_catalogue_order (self : obj) (d : frame row)
    (m : svd) (a : Q) (sim : list (list Q)) (item_id : Z) (n : Z) :
  ready self d m a sim -> In item_id (item_ids d) -> 0 <= n ->
  exists idx sim_row top ps rest cb,
    List.hd_error (index_of d item_id) = Some idx /\
    nth_error (item_ids d) idx = Some item_id /\
    nth_error sim idx = Some sim_row /\
    Permutation (top :: ps ++ rest) (enumerate sim_row) /\
    StronglySorted by_score_then_position (top :: ps ++ rest) /\
    Z.of_nat (length ps) = Z.min n (Z.of_nat (length (rows d)) - 1) /\
    cb_recs self (Some item_id) n = Ok cb /\
    Forall2 (fun p c => nth_error (item_ids d) (fst p) = Some (fst c)
                        /\ snd c = snd p) ps cb.
Proof.
  intros Hr Hin Hn.
  destruct (cb_recs_run self d m a sim item_id n Hr Hin)
    as (idx & r & sim_row & picked & _ & Hhd & Hidx & Hk & Hrow & Hwidth
        & Hp & Hcb).
  assert (Hseed : nth_error (item_ids d) idx = Some item_id).
  { unfold item_ids. rewrite nth_error_map, Hidx. simpl. now rewrite Hk. }
  pose proof (sort_desc_perm snd (enumerate sim_row)) as Hperm.
  pose proof (sort_desc_stable (enumerate sim_row)
                (combine_seq_increasing sim_row 0)) as Hsorted.
  pose proof (sort_desc_length snd (enumerate sim_row)) as Hlen.
  rewrite enumerate_length, Hwidth in Hlen.
  apply nth_error_lt in Hidx.
  destruct (sort_desc snd (enumerate sim_row)) as [|top tl] eqn:Hsort;
    [simpl in Hlen; lia|].
  rewrite (slice_tail_eq n top tl Hn) in Hp, Hcb.
  set (k := Z.to_nat (Z.min n (Z.of_nat (length tl)))) in *.
  exists idx, sim_row, top, (firstn k tl), (skipn k tl).
  eexists. rewrite firstn_skipn.
  split; [exact Hhd|]. split; [exact Hseed|]. split; [exact Hrow|].
  split; [now apply Permutation_sym|]. split; [exact Hsorted|].
  split; [|split; [exact Hcb|now apply candidates_of_positions]].
  rewrite length_firstn. unfold k. simpl in Hlen. lia.
Qed.

(** X4.  On a catalogue of N items with unique ids, and with no seed item
    or a seed item of the catalogue, [recommend_items] returns exactly
    min(n, N) rows when [n >= 0] and max(0, N + n) rows when [n < 0]. *)
Theorem recommend_items_row_count (self : obj) (d : frame row) (m : svd)
    (a : Q) (sim : list (list Q)) (user_id : Z) (item_id : option Z) (n : Z) :
  ready self d m a sim -> NoDup (item_ids d) ->
  (forall i, item_id = Some i -> In i (item_ids d)) ->
  exists out, recommend_items self user_id item_id n = Ok out /\
    Z.of_nat (length (rows out))
    = if n <? 0 then Z.max 0 (Z.of_nat (length (rows d)) + n)
      else Z.min n (Z.of_nat (length (rows d))).
Proof.
  intros Hr Hnd Hseed.
  destruct (ranked_shape self d m a sim user_id item_id n Hr Hnd Hseed)
    as (out & fr & Hout & Hperm & Hrows).
  exists out. split; [assumption|].
  rewrite <- (length_map fst), Hrows, head_length_exact, sort_desc_length.
  apply Permutation_length in Hperm. unfold item_ids in Hperm.
  rewrite !length_map in Hperm. now rewrite Hperm.
Qed.

(** X5.  On a catalogue with unique ids, and with no seed item or a seed
    item of the catalogue, no item is returned twice. *)
Theorem no_item_recommended_twice (self : obj) (d : frame row) (m : svd)
    (a : Q) (sim : list (list Q)) (user_id : Z) (item_id : option Z) (n : Z) :
  ready self d m a sim -> NoDup (item_ids d) ->
  (forall i, item_id = Some i -> In i (item_ids d)) ->
  exists out, recommend_items self user_id item_id n = Ok out /\
    NoDup (map (fun p => s_item_id (fst p)) (rows out)).
Proof.
  intros Hr Hnd Hseed.
  destruct (ranked_shape self d m a sim user_id item_id n Hr Hnd Hseed)
    as (out & fr & Hout & Hperm & Hrows).
  exists out. split; [assumption|].
  rewrite <- (map_map fst s_item_id), Hrows. unfold head.
  rewrite slice_map. apply NoDup_slice.
  apply Permutation_NoDup with (item_ids d); [|assumption].
  rewrite <- Hperm. apply Permutation_map, sort_desc_perm.
Qed.

(** X6.  Every returned row pairs the scores of an item with a catalogue
    row of that same item: the metadata shown for an item is its own. *)
Theorem returned_rows_carry_their_catalogue_row (self : obj) (d : frame row)
    (user_id : Z) (item_id : option Z) (n : Z) (out : frame (scores * row)) :
  recommend_items self user_id item_id n = Ok out ->
  o_item_data self = Some d ->
  forall s r, In (s, r) (rows out) ->
    In r (rows d) /\ r_item_id r = s_item_id s.
Proof.
  intros Hout Hd s r Hin.
  pose proof (recommend_items_inv _ _ _ _ _ Hout)
    as (cf & cb & fr & d' & _ & _ & _ & Hd' & Heq).
  assert (d' = d) by congruence. subst d'.
  rewrite Heq in Hin. apply merge_item_data_In in Hin. tauto.
Qed.

(** X7.  For [n >= 0], [recommend_items] returns the top of the blend: a
    line of the blended frame is either returned or has a hybrid_score no
    higher than that of every returned row. *)
Theorem left_out_lines_score_no_higher (self : obj) (user_id : Z)
    (item_id : option Z) (n : Z) (cf cb : list (Z * Q)) (fr : frame scores)
    (out : frame (scores * row)) :
  recommend_items self user_id item_id n = Ok out ->
  cf_recs self user_id = Ok cf -> cb_recs self item_id n = Ok cb ->
  combine_recs self cf cb = Ok fr -> 0 <= n ->
  forall s', In s' (rows fr) ->
    (exists r', In (s', r') (rows out)) \/
    (forall s r, In (s, r) (rows out) ->
       (hybrid_score s' <= hybrid_score s)%Q).
Proof.
  intros Hout Hcf Hcb Hfr Hn s' Hs'.
  pose proof (recommend_items_inv _ _ _ _ _ Hout)
    as (cf' & cb' & fr' & d & Hcf' & Hcb' & Hfr' & Hd & Heq).
  assert (cf' = cf) by congruence. subst cf'.
  assert (cb' = cb) by congruence. subst cb'.
  assert (fr' = fr) by congruence. subst fr'.
  destruct (head_cuts_sorted hybrid_score n (sort_desc hybrid_score (rows fr))
              s' Hn (sort_desc_sorted _ _)) as [Hkept|Hbelow].
  - now apply sort_desc_In.
  - left.
    pose proof (blend_keys_incl self d user_id item_id n cf cb fr Hd Hcf Hcb
                  Hfr s' Hs') as Hkey.
    unfold item_ids in Hkey. apply in_map_iff in Hkey.
    destruct Hkey as [r' [Hr' Hin']]. exists r'. rewrite Heq.
    apply merge_item_data_In. cbn [rows]. auto.
  - right. intros s r Hin. rewrite Heq in Hin.
    apply merge_item_data_In in Hin. destruct Hin as [Hin _].
    cbn [rows] in Hin. now apply Hbelow.
Qed.

(** X8.  With alpha = 1 the hybrid_score of every returned row is its
    cf_score, with or without a seed item: the content similarity does not
    enter the scores. *)
Theorem alpha_one_scores_are_collaborative (self : obj) (a : Q) (user_id : Z)
    (item_id : option Z) (n : Z) (out : frame (scores * row)) :
  o_alpha self = Some a -> (a == 1)%Q ->
  recommend_items self user_id item_id n = Ok out ->
  forall s r, In (s, r) (rows out) ->
    (hybrid_score s == fillna (cf_score s))%Q.
Proof.
  intros Ha Ha1 Hout s r Hin.
  pose proof (recommend_items_inv _ _ _ _ _ Hout)
    as (cf & cb & fr & d & _ & _ & Hfr & _ & Heq).
  rewrite Heq in Hin. apply returned_line in Hin.
  destruct cb as [|c0 cb'].
  - destruct (combine_recs_cf_only self cf fr Hfr) as [_ Hrows].
    destruct (Hrows s Hin) as (_ & -> & _). simpl. reflexivity.
  - destruct (combine_recs_blend self cf (c0 :: cb') fr Hfr)
      as (a' & Ha' & _ & Hrows); [discriminate|].
    assert (a' = a) by congruence. subst a'.
    destruct (Hrows s Hin) as [_ ->]. rewrite Ha1. ring.
Qed.

(** X9.  With alpha = 0 and at least one content-based candidate, the
    hybrid_score of every returned row is its cb_score, a missing cb_score
    counting as 0: the collaborative prediction does not enter the
    scores. *)
Theorem alpha_zero_scores_are_content (self : obj) (a : Q) (user_id : Z)
    (item_id : option Z) (n : Z) (cb : list (Z * Q))
    (out : frame (scores * row)) :
  o_alpha self = Some a -> (a == 0)%Q ->
  cb_recs self item_id n = Ok cb -> cb <> [] ->
  recommend_items self user_id item_id n = Ok out ->
  forall s r, In (s, r) (rows out) ->
    (hybrid_score s == fillna (cb_score s))%Q.
Proof.
  intros Ha Ha0 Hcb Hne Hout s r Hin.
  pose proof (recommend_items_inv _ _ _ _ _ Hout)
    as (cf & cb' & fr & d & _ & Hcb' & Hfr & _ & Heq).
  assert (cb' = cb) by congruence. subst cb'.
  rewrite Heq in Hin. apply returned_line in Hin.
  destruct (combine_recs_blend self cf cb fr Hfr Hne)
    as (a' & Ha' & _ & Hrows).
  assert (a' = a) by congruence. subst a'.
  destruct (Hrows s Hin) as [_ ->]. rewrite Ha0. ring.
Qed.

End RankingProperties.

Lemma cb_recs_length_order_witness :
  ready recommender_3 catalogue_3 (fun _ i => inject_Z i) (1 # 2)
    [[1; 1 # 2; 0]; [1 # 2; 1; 0]; [0; 0; 1]]%Q /\
  In 1 (item_ids catalogue_3) /\ 0 <= 2 /\
  exists cb, cb_recs recommender_3 (Some 1) 2 = Ok cb /\
    Z.of_nat (length cb) = Z.min 2 (Z.of_nat (length (rows catalogue_3)) - 1) /\
    StronglySorted (fun x y => (y <= x)%Q) (map snd cb).
Proof.
  assert (Hin : In 1 (item_ids catalogue_3)) by (simpl; auto).
  assert (Hn : 0 <= 2) by lia.
  split; [exact ready_recommender_3|]. split; [exact Hin|]. split; [exact Hn|].
  exact (cb_recs_length_order recommender_3 catalogue_3 _ _ _ 1 2
           ready_recommender_3 Hin Hn).
Defined.

Lemma candidates_ties_in_catalogue_order_witness :
  ready recommender_3 catalogue_3 (fun _ i => inject_Z i) (1 # 2)
    [[1; 1 # 2; 0]; [1 # 2; 1; 0]; [0; 0; 1]]%Q /\
  In 3 (item_ids catalogue_3) /\ 0 <= 2 /\
  exists idx sim_row top ps rest cb,
    List.hd_error (index_of catalogue_3 3) = Some idx /\
    nth_error (item_ids catalogue_3) idx = Some 3 /\
    nth_error [[1; 1 # 2; 0]; [1 # 2; 1; 0]; [0; 0; 1]]%Q idx = Some sim_row /\
    Permutation (top :: ps ++ rest) (enumerate sim_row) /\
    StronglySorted by_score_then_position (top :: ps ++ rest) /\
    Z.of_nat (length ps) = Z.min 2 (Z.of_nat (length (rows catalogue_3)) - 1) /\
    cb_recs recommender_3 (Some 3) 2 = Ok cb /\
    Forall2 (fun p c => nth_error (item_ids catalogue_3) (fst p) = Some (fst c)
                        /\ snd c = snd p) ps cb.
Proof.
  assert (Hin : In 3 (item_ids catalogue_3)) by (simpl; auto).
  assert (Hn : 0 <= 2) by lia.
  split; [exact ready_recommender_3|]. split; [exact Hin|]. split; [exact Hn|].
  exact (candidates_ties_in_catalogue_order recommender_3 catalogue_3 _ _ _
           3 2 ready_recommender_3 Hin Hn).
Defined.

Lemma cb_recs_excludes_seed_witness :
  ready recommender_3 catalogue_3 (fun _ i => inject_Z i) (1 # 2)
    [[1; 1 # 2; 0]; [1 # 2; 1; 0]; [0; 0; 1]]%Q /\
  NoDup (item_ids catalogue_3) /\
  exists cb, cb_recs recommender_3 (Some 1) 2 = Ok cb /\
    ~ In 1 (map fst cb).
Proof.
  split; [exact ready_recommender_3|]. split; [exact NoDup_catalogue_3|].
  apply (cb_recs_excludes_seed recommender_3 catalogue_3 _ _ _ 1 2 0%nat
           (item 1 "space adventure sci-fi") [1; 1 # 2; 0]%Q 1%Q
           ready_recommender_3 NoDup_catalogue_3);
    try reflexivity.
  intros [|[|[|j]]] w Hj Hw; simpl in Hw; try congruence.
  - injection Hw as <-. reflexivity.
  - injection Hw as <-. reflexivity.
  - destruct j; discriminate.
Defined.

Lemma seed_1_in_catalogue_3 :
  forall i, Some 1 = Some i -> In i (item_ids catalogue_3).
Proof. intros i Hi. injection Hi as <-. simpl. auto. Qed.

Lemma recommend_items_row_count_witness :
  ready recommender_3 catalogue_3 (fun _ i => inject_Z i) (1 # 2)
    [[1; 1 # 2; 0]; [1 # 2; 1; 0]; [0; 0; 1]]%Q /\
  NoDup (item_ids catalogue_3) /\
  exists out, recommend_items recommender_3 7 (Some 1) (-1) = Ok out /\
    Z.of_nat (length (rows out))
    = if -1 <? 0 then Z.max 0 (Z.of_nat (length (rows catalogue_3)) + -1)
      else Z.min (-1) (Z.of_nat (length (rows catalogue_3))).
Proof.
  split; [exact ready_recommender_3|]. split; [exact NoDup_catalogue_3|].
  exact (recommend_items_row_count recommender_3 catalogue_3 _ _ _ 7 (Some 1)
           (-1) ready_recommender_3 NoDup_catalogue_3 seed_1_in_catalogue_3).
Defined.

Lemma no_item_recommended_twice_witness :
  ready recommender_3 catalogue_3 (fun _ i => inject_Z i) (1 # 2)
    [[1; 1 # 2; 0]; [1 # 2; 1; 0]; [0; 0; 1]]%Q /\
  NoDup (item_ids catalogue_3) /\
  exists out, recommend_items recommender_3 7 (Some 1) 2 = Ok out /\
    NoDup (map (fun p => s_item_id (fst p)) (rows out)).
Proof.
  split; [exact ready_recommender_3|]. split; [exact NoDup_catalogue_3|].
  exact (no_item_recommended_twice recommender_3 catalogue_3 _ _ _ 7 (Some 1)
           2 ready_recommender_3 NoDup_catalogue_3 seed_1_in_catalogue_3).
Defined.

Lemma returned_rows_carry_their_catalogue_row_witness :
  exists out,
    recommend_items recommender_3 7 (Some 1) 2 = Ok out /\
    o_item_data recommender_3 = Some catalogue_3 /\
    forall s r, In (s, r) (rows out) ->
      In r (rows catalogue_3) /\ r_item_id r = s_item_id s.
Proof.
  eexists. split; [vm_compute; reflexivity|]. split; [reflexivity|].
  apply (returned_rows_carry_their_catalogue_row recommender_3 catalogue_3 7
           (Some 1) 2); [vm_compute; reflexivity|reflexivity].
Defined.

Lemma left_out_lines_score_no_higher_witness :
  exists cf cb fr out,
    recommend_items recommender_3 7 (Some 1) 2 = Ok out /\
    cf_recs recommender_3 7 = Ok cf /\
    cb_recs recommender_3 (Some 1) 2 = Ok cb /\
    combine_recs recommender_3 cf cb = Ok fr /\ 0 <= 2 /\
    forall s', In s' (rows fr) ->
      (exists r', In (s', r') (rows out)) \/
      (forall s r, In (s, r) (rows out) ->
         (hybrid_score s' <= hybrid_score s)%Q).
Proof.
  do 4 eexists.
  split; [vm_compute; reflexivity|]. split; [vm_compute; reflexivity|].
  split; [vm_compute; reflexivity|]. split; [vm_compute; reflexivity|].
  split; [lia|].
  eapply (left_out_lines_score_no_higher recommender_3 7 (Some 1) 2);
    try (vm_compute; reflexivity).
  lia.
Defined.

Lemma alpha_one_scores_are_collaborative_witness :
  exists out,
    o_alpha recommender_cf_only = Some 1%Q /\ (1 == 1)%Q /\
    recommend_items recommender_cf_only 7 (Some 1) 2 = Ok out /\
    forall s r, In (s, r) (rows out) ->
      (hybrid_score s == fillna (cf_score s))%Q.
Proof.
  eexists. split; [reflexivity|]. split; [reflexivity|].
  split; [vm_compute; reflexivity|].
  apply (alpha_one_scores_are_collaborative recommender_cf_only 1%Q 7
           (Some 1) 2); [reflexivity|reflexivity|vm_compute; reflexivity].
Defined.

Lemma alpha_zero_scores_are_content_witness :
  exists cb out,
    o_alpha recommender_cb_only = Some 0%Q /\ (0 == 0)%Q /\
    cb_recs recommender_cb_only (Some 1) 2 = Ok cb /\ cb <> [] /\
    recommend_items recommender_cb_only 7 (Some 1) 2 = Ok out /\
    forall s r, In (s, r) (rows out) ->
      (hybrid_score s == fillna (cb_score s))%Q.
Proof.
  do 2 eexists. split; [reflexivity|]. split; [reflexivity|].
  split; [vm_compute; reflexivity|]. split; [discriminate|].
  split; [vm_compute; reflexivity|].
  eapply (alpha_zero_scores_are_content recommender_cb_only 0%Q 7 (Some 1) 2);
    try reflexivity; try (vm_compute; reflexivity).
  discriminate.
Defined.

(** ** Construction: failures, logging and the disk *)

Ltac unfold_methods :=
  unfold HybridRecommender, __init__, try_reraise, _load_data,
    _init_collaborative_filtering, _init_content_based_filtering,
    _calculate_similarity_matrix, _setup_logging, logger_info, logger_error,
    bindM, path_exists, read_csv, attr, setattr, call, emit, raise.

Ltac show_prefix :=
  first [ exists (@nil log_record); reflexivity
        | eexists (_ :: nil); reflexivity
        | eexists (_ :: _ :: nil); reflexivity
        | eexists (_ :: _ :: _ :: nil); reflexivity
        | eexists (_ :: _ :: _ :: _ :: nil); reflexivity
        | eexists (_ :: _ :: _ :: _ :: _ :: nil); reflexivity
        | eexists (_ :: _ :: _ :: _ :: _ :: _ :: nil); reflexivity
        | eexists (_ :: _ :: _ :: _ :: _ :: _ :: _ :: nil); reflexivity ].

Ltac solve_outcome :=
  solve [ cbn [fst snd fs log logging_configured];
          split; [reflexivity|]; split; [reflexivity|];
          split; [simpl; tauto|]; split; [show_prefix|];
          let He := fresh "He" in
          intros ? He; first [discriminate He
                             | injection He as <-; reflexivity] ].

Section ConstructionOutcome.
Context {L : Library}.

Lemma missing_column (cols required : list string) (c : string) :
  In c required -> ~ In c cols ->
  forallb (has_column cols) required = false.
Proof.
  intros Hreq Hnot. apply not_true_is_false. intros H.
  rewrite forallb_forall in H. apply Hnot, has_column_In. now apply H.
Qed.

(** Whatever happens after the alpha check: the disk is as it was, logging
    is configured, the first record logged is the initialisation message,
    earlier records are kept, and a failure is logged last. *)
Lemma init_outcome (interactions_path metadata_path : string) (alpha : Q)
    (w : world) :
  alpha_out_of_range alpha = false ->
  fs (snd (HybridRecommender interactions_path metadata_path alpha w)) = fs w /\
  logging_configured
    (snd (HybridRecommender interactions_path metadata_path alpha w)) = true /\
  In (INFO "Initializing HybridRecommender")
     (log (snd (HybridRecommender interactions_path metadata_path alpha w))) /\
  (exists l,
     log (snd (HybridRecommender interactions_path metadata_path alpha w))
     = l ++ log w) /\
  (forall e,
     fst (HybridRecommender interactions_path metadata_path alpha w) = Raise e ->
     List.hd_error
       (log (snd (HybridRecommender interactions_path metadata_path alpha w)))
     = Some (ERROR ("Initialization failed: " ++ str e)%string)).
Proof.
  intros Ha. unfold_methods. rewrite Ha. run_method.
  destruct (fs w interactions_path) as [[fi|?]|] eqn:Hfi;
    destruct (fs w metadata_path) as [[fm|?]|] eqn:Hfm;
    repeat progress (run_method; rewrite ?Hfi, ?Hfm); try solve_outcome.
  destruct (forallb (has_column (columns fi)) required_interaction_cols) eqn:Hci;
    repeat progress (run_method; rewrite ?Hfi, ?Hfm, ?Hci); try solve_outcome.
  destruct (forallb (has_column (columns fm)) required_metadata_cols) eqn:Hcm;
    repeat progress (run_method; rewrite ?Hfi, ?Hfm, ?Hci, ?Hcm);
    try solve_outcome.
  destruct (load_and_split (ratings_of fi)) as [split|] eqn:Hsplit;
    repeat progress run_method; try solve_outcome.
  destruct (fit SVD (fst split)) as [fitted|] eqn:Hfit;
    repeat progress run_method; try solve_outcome.
  destruct (test fitted (snd split)) as [preds|] eqn:Htest;
    repeat progress run_method; try solve_outcome.
  destruct (rmse preds) as [v|] eqn:Hrmse;
    repeat progress run_method; try solve_outcome.
  destruct (fit_transform TfidfVectorizer
              (map r_description (rows (fillna_description fm))))
    as [tf|] eqn:Htf;
    repeat progress run_method; try solve_outcome.
  destruct (linear_kernel (snd tf) (snd tf)) as [sim|] eqn:Hsim;
    repeat progress run_method; solve_outcome.
Qed.

End ConstructionOutcome.

Section ConstructionProperties.
Context {L : Library}.

Lemma alpha_outside (alpha : Q) :
  (alpha < 0 \/ 1 < alpha)%Q -> alpha_out_of_range alpha = true.
Proof.
  intros H. destruct (alpha_out_of_range alpha) eqn:Ha; [reflexivity|].
  apply alpha_in_range in Ha. destruct Ha as [H0 H1].
  destruct H as [H|H]; [now apply Qlt_not_le in H|now apply Qlt_not_le in H].
Qed.

(** X10.  The constructor accepts exactly the weights of [0, 1]: for every
    alpha below 0 or above 1 it raises
    [ValueError("Alpha must be between 0 and 1")] and leaves the world as it
    was; for every alpha of [0, 1] it goes on to configure logging and to
    log its initialisation message, whatever happens next. *)
Theorem alpha_accepted_exactly_in_range
    (interactions_path metadata_path : string) (alpha : Q) (w : world) :
  ((alpha < 0 \/ 1 < alpha)%Q ->
   HybridRecommender interactions_path metadata_path alpha w
   = (Raise (ValueError "Alpha must be between 0 and 1"), w)) /\
  ((0 <= alpha /\ alpha <= 1)%Q ->
   logging_configured
     (snd (HybridRecommender interactions_path metadata_path alpha w)) = true /\
   In (INFO "Initializing HybridRecommender")
      (log (snd (HybridRecommender interactions_path metadata_path alpha w)))).
Proof.
  split.
  - intros H. apply alpha_outside in H. unfold HybridRecommender.
    now rewrite init_rejects.
  - intros H. apply alpha_in_range in H.
    destruct (init_outcome interactions_path metadata_path alpha w H)
      as (_ & Hc & Hl & _).
    now split.
Qed.

(** X11.  The constructor never writes to the disk: whatever the paths, the
    weight and the outcome, every file is afterwards what it was before. *)
Theorem construction_leaves_the_disk_untouched
    (interactions_path metadata_path : string) (alpha : Q) (w : world) :
  fs (snd (HybridRecommender interactions_path metadata_path alpha w)) = fs w.
Proof.
  destruct (alpha_out_of_range alpha) eqn:Ha.
  - unfold HybridRecommender. now rewrite init_rejects.
  - now apply init_outcome.
Qed.

(** X12.  When construction fails after the alpha check, the exception it
    raises is the one it logs: the newest log record is the error
    "Initialization failed: " followed by the text of that exception, and
    the records logged before the call are all kept. *)
Theorem failure_is_logged_then_raised
    (interactions_path metadata_path : string) (alpha : Q) (w w' : world)
    (e : exn) :
  (0 <= alpha /\ alpha <= 1)%Q ->
  HybridRecommender interactions_path metadata_path alpha w = (Raise e, w') ->
  List.hd_error (log w')
  = Some (ERROR ("Initialization failed: " ++ str e)%string) /\
  exists l, log w' = l ++ log w.
Proof.
  intros Ha H. apply alpha_in_range in Ha.
  destruct (init_outcome interactions_path metadata_path alpha w Ha)
    as (_ & _ & _ & Hl & He).
  rewrite H in Hl, He. simpl in Hl, He. split; [now apply He|exact Hl].
Qed.

(** X13.  A missing file is reported before anything is read, the
    interactions file first: without it the constructor raises
    [FileNotFoundError("Interactions file not found: <path>")] whatever the
    metadata path holds; with it and without the metadata file it raises
    [FileNotFoundError("Metadata file not found: <path>")] whatever the
    interactions file holds.  Both are logged as errors. *)
Theorem missing_file_is_reported
    (interactions_path metadata_path : string) (alpha : Q) (w : world) :
  (0 <= alpha /\ alpha <= 1)%Q ->
  (fs w interactions_path = None ->
   HybridRecommender interactions_path metadata_path alpha w
   = (Raise (FileNotFoundError
               ("Interactions file not found: " ++ interactions_path)%string),
      mkWorld (fs w)
        (ERROR ("Initialization failed: "
                ++ ("Interactions file not found: " ++ interactions_path))%string
         :: INFO "Initializing HybridRecommender" :: log w) true)) /\
  (forall f, fs w interactions_path = Some f ->
   fs w metadata_path = None ->
   HybridRecommender interactions_path metadata_path alpha w
   = (Raise (FileNotFoundError
               ("Metadata file not found: " ++ metadata_path)%string),
      mkWorld (fs w)
        (ERROR ("Initialization failed: "
                ++ ("Metadata file not found: " ++ metadata_path))%string
         :: INFO "Initializing HybridRecommender" :: log w) true)).
Proof.
  intros Ha. apply alpha_in_range in Ha. split.
  - intros Hfi. unfold_methods. rewrite Ha.
    repeat progress (run_method; rewrite ?Hfi). reflexivity.
  - intros f Hfi Hfm. unfold_methods. rewrite Ha.
    repeat progress (run_method; rewrite ?Hfi, ?Hfm). reflexivity.
Qed.

(** X14.  With both files readable, a missing required column is reported
    after both files are read, the interactions columns first: a missing
    one of user_id, item_id, rating raises the [ValueError] on the
    interactions data whatever the metadata columns are; with those present,
    a missing one of item_id, description raises the [ValueError] on the
    item metadata.  The outcome does not depend on the libraries. *)
Theorem missing_column_is_reported
    (interactions_path metadata_path : string) (alpha : Q) (w : world)
    (fi fm : frame row) (c : string) :
  (0 <= alpha /\ alpha <= 1)%Q ->
  fs w interactions_path = Some (Csv fi) ->
  fs w metadata_path = Some (Csv fm) ->
  (In c required_interaction_cols -> ~ In c (columns fi) ->
   HybridRecommender interactions_path metadata_path alpha w
   = (Raise (ValueError
        "Interactions data missing required columns: ['user_id', 'item_id', 'rating']"),
      mkWorld (fs w)
        (ERROR "Initialization failed: Interactions data missing required columns: ['user_id', 'item_id', 'rating']"
         :: INFO "Initializing HybridRecommender" :: log w) true)) /\
  ((forall c', In c' required_interaction_cols -> In c' (columns fi)) ->
   In c required_metadata_cols -> ~ In c (columns fm) ->
   HybridRecommender interactions_path metadata_path alpha w
   = (Raise (ValueError
        "Item metadata missing required columns: ['item_id', 'description']"),
      mkWorld (fs w)
        (ERROR "Initialization failed: Item metadata missing required columns: ['item_id', 'description']"
         :: INFO "Initializing HybridRecommender" :: log w) true)).
Proof.
  intros Ha Hfi Hfm. apply alpha_in_range in Ha. split.
  - intros Hreq Hnot.
    pose proof (missing_column _ _ _ Hreq Hnot) as Hci.
    unfold_methods. rewrite Ha.
    repeat progress (run_method; rewrite ?Hfi, ?Hfm, ?Hci). reflexivity.
  - intros Hall Hreq Hnot.
    pose proof (missing_column _ _ _ Hreq Hnot) as Hcm.
    assert (Hci : forallb (has_column (columns fi)) required_interaction_cols
                  = true).
    { apply forallb_forall. intros x Hx. apply has_column_In. now apply Hall. }
    unfold_methods. rewrite Ha.
    repeat progress (run_method; rewrite ?Hfi, ?Hfm, ?Hci, ?Hcm). reflexivity.
Qed.

(** X15.  An instance returned by the constructor holds the interactions
    exactly as read, and the catalogue as read except that every missing
    description has become the empty string: same columns, same items in
    the same order, present descriptions unchanged, none missing. *)
Theorem catalogue_is_kept_with_descriptions_filled
    (interactions_path metadata_path : string) (alpha : Q) (w w' : world)
    (recommender : obj) :
  HybridRecommender interactions_path metadata_path alpha w
  = (Ok recommender, w') ->
  exists fi fm d,
    fs w interactions_path = Some (Csv fi) /\
    fs w metadata_path = Some (Csv fm) /\
    o_interactions recommender = Some fi /\
    o_item_data recommender = Some d /\
    columns d = columns fm /\
    item_ids d = item_ids fm /\
    Forall2 (fun r r' =>
               r_description r'
               = Some (match r_description r with
                       | Some text => text
                       | None => ""%string
                       end))
            (rows fm) (rows d) /\
    (forall r', In r' (rows d) -> r_description r' <> None).
Proof.
  intros H. apply constructed_inv in H.
  destruct H as (fi & fm & fitted & v & tf & sim & _ & (Hfi & Hfm & _) & _ & ->).
  exists fi, fm, (fillna_description fm).
  repeat split; try assumption; try reflexivity.
  - unfold item_ids, fillna_description. cbn [rows]. rewrite map_map.
    reflexivity.
  - unfold fillna_description. cbn [rows].
    induction (rows fm) as [|r t IH]; simpl; constructor; auto.
  - intros r' Hin. unfold fillna_description in Hin. cbn [rows] in Hin.
    apply in_map_iff in Hin. destruct Hin as [r [<- _]]. discriminate.
Qed.

End ConstructionProperties.

(** ** Persistence: what is written and what comes back *)

Section PersistenceProperties.
Context {L : Library}.

Lemma save_model_run (o : obj) (a : Q) (t : vectorizer) (m : svd)
    (sim : list (list Q)) (d : frame row) (path : string) (w : world) :
  complete o a t m sim d ->
  save_model path (mkState o w)
  = (Ok tt,
     mkState o
       (mkWorld (fs (written path (mkModelData a t m sim d) w))
                (INFO ("Model saved to " ++ path)%string :: log w)
                (logging_configured w))).
Proof.
  intros (Ha & Ht & Hm & Hs & Hd & lg & Hl).
  unfold save_model, logger_info, joblib_dump, bindM, attr, emit, written.
  repeat progress (run_method; rewrite ?Ha, ?Ht, ?Hm, ?Hs, ?Hd, ?Hl).
  reflexivity.
Qed.


(** X16.  [save_model] on an instance holding its five model attributes and
    a logger writes the dictionary of those five under [path], leaves every
    other file as it was, leaves the instance as it was, and logs one
    record. *)
Theorem save_model_writes_one_file (o : obj) (a : Q) (t : vectorizer)
    (m : svd) (sim : list (list Q)) (d : frame row) (path : string)
    (w : world) :
  complete o a t m sim d ->
  exists w',
    save_model path (mkState o w) = (Ok tt, mkState o w') /\
    fs w' path = Some (Joblib (mkModelData a t m sim d)) /\
    (forall q, q <> path -> fs w' q = fs w q) /\
    log w' = INFO ("Model saved to " ++ path)%string :: log w /\
    logging_configured w' = logging_configured w.
Proof.
  intros Hc. eexists.
  split; [exact (save_model_run o a t m sim d path w Hc)|].
  cbn [fs log logging_configured written]. repeat split.
  - now rewrite String.eqb_refl.
  - intros q Hq. apply String.eqb_neq in Hq. now rewrite Hq.
Qed.

(** X17.  [save_model] on an instance lacking one of alpha, tfidf,
    cf_model, cosine_sim, item_data raises [AttributeError] before anything
    is written or logged: the state is unchanged. *)
Theorem save_model_needs_the_five_attributes (o : obj) (path : string)
    (w : world) :
  o_alpha o = None \/ o_tfidf o = None \/ o_cf_model o = None \/
  o_cosine_sim o = None \/ o_item_data o = None ->
  exists msg,
    save_model path (mkState o w) = (Raise (AttributeError msg), mkState o w).
Proof.
  intros H. unfold save_model, logger_info, joblib_dump, bindM, attr, emit.
  run_method.
  destruct (o_alpha o) as [a|]; run_method; [|eauto].
  destruct (o_tfidf o) as [t|]; run_method; [|eauto].
  destruct (o_cf_model o) as [m|]; run_method; [|eauto].
  destruct (o_cosine_sim o) as [sim|]; run_method; [|eauto].
  destruct (o_item_data o) as [d|]; run_method; [|eauto].
  exfalso. intuition discriminate.
Qed.

(** X18.  An instance returned by [load_model] has no logger, no
    interactions and no TF-IDF matrix, and loading changes nothing in the
    world.  [save_model] on such an instance writes the file, from which
    the same instance loads again, and then raises [AttributeError] for the
    missing logger, logging nothing. *)
Theorem saving_a_loaded_instance_fails_after_writing (path : string)
    (w w' : world) (loaded : obj) :
  load_model path w = (Ok loaded, w') ->
  w' = w /\
  o_logger loaded = None /\ o_interactions loaded = None /\
  o_tfidf_matrix loaded = None /\
  forall path2 w2, exists w2',
    save_model path2 (mkState loaded w2)
    = (Raise (AttributeError
                "'HybridRecommender' object has no attribute 'logger'"),
       mkState loaded w2') /\
    load_model path2 w2' = (Ok loaded, w2') /\
    log w2' = log w2.
Proof.
  unfold load_model. destruct (joblib_load path w) as [md|e]; [|discriminate].
  intros H. injection H as <- <-. repeat split.
  intros path2 w2. eexists. split; [|split].
  - unfold save_model, logger_info, joblib_dump, bindM, attr, emit.
    run_method. reflexivity.
  - unfold load_model, joblib_load. cbn [fs]. rewrite String.eqb_refl.
    destruct md; reflexivity.
  - reflexivity.
Qed.


End PersistenceProperties.

Lemma alpha_accepted_exactly_in_range_witness :
  (- (1 # 10) < 0 \/ 1 < - (1 # 10))%Q /\
  HybridRecommender "user_item_interactions.csv" "item_metadata.csv"
    (- (1 # 10)) (disk ratings_4 catalogue_3)
  = (Raise (ValueError "Alpha must be between 0 and 1"),
     disk ratings_4 catalogue_3) /\
  (0 <= 1 # 2 /\ 1 # 2 <= 1)%Q /\
  logging_configured
    (snd (HybridRecommender "user_item_interactions.csv" "item_metadata.csv"
            (1 # 2) (disk ratings_4 catalogue_3))) = true /\
  In (INFO "Initializing HybridRecommender")
     (log (snd (HybridRecommender "user_item_interactions.csv"
                  "item_metadata.csv" (1 # 2) (disk ratings_4 catalogue_3)))).
Proof.
  assert (Hout : (- (1 # 10) < 0 \/ 1 < - (1 # 10))%Q) by (left; reflexivity).
  assert (Hin : (0 <= 1 # 2 /\ 1 # 2 <= 1)%Q) by (split; discriminate).
  split; [exact Hout|].
  split; [exact (proj1 (@alpha_accepted_exactly_in_range demo_library
                          "user_item_interactions.csv" "item_metadata.csv"
                          (- (1 # 10)) (disk ratings_4 catalogue_3)) Hout)|].
  split; [exact Hin|].
  exact (proj2 (@alpha_accepted_exactly_in_range demo_library
                  "user_item_interactions.csv" "item_metadata.csv"
                  (1 # 2) (disk ratings_4 catalogue_3)) Hin).
Defined.

Lemma half_in_range : (0 <= 1 # 2 /\ 1 # 2 <= 1)%Q.
Proof. split; discriminate. Qed.

Lemma failure_is_logged_then_raised_witness :
  exists e w',
    (0 <= 1 # 2 /\ 1 # 2 <= 1)%Q /\
    HybridRecommender "user_item_interactions.csv" "item_metadata.csv" (1 # 2)
      empty_disk = (Raise e, w') /\
    List.hd_error (log w')
    = Some (ERROR ("Initialization failed: " ++ str e)%string) /\
    exists l, log w' = l ++ log empty_disk.
Proof.
  do 2 eexists. split; [exact half_in_range|].
  split; [vm_compute; reflexivity|].
  apply (@failure_is_logged_then_raised demo_library
           "user_item_interactions.csv" "item_metadata.csv" (1 # 2) empty_disk);
    [exact half_in_range|vm_compute; reflexivity].
Defined.

Lemma missing_file_is_reported_witness :
  (0 <= 1 # 2 /\ 1 # 2 <= 1)%Q /\
  fs empty_disk "user_item_interactions.csv" = None /\
  HybridRecommender "user_item_interactions.csv" "item_metadata.csv" (1 # 2)
    empty_disk
  = (Raise (FileNotFoundError
              "Interactions file not found: user_item_interactions.csv"),
     mkWorld (fs empty_disk)
       [ERROR "Initialization failed: Interactions file not found: user_item_interactions.csv";
        INFO "Initializing HybridRecommender"] true) /\
  fs disk_without_metadata "user_item_interactions.csv"
  = Some (@Csv demo_library ratings_4) /\
  fs disk_without_metadata "item_metadata.csv" = None /\
  HybridRecommender "user_item_interactions.csv" "item_metadata.csv" (1 # 2)
    disk_without_metadata
  = (Raise (FileNotFoundError "Metadata file not found: item_metadata.csv"),
     mkWorld (fs disk_without_metadata)
       [ERROR "Initialization failed: Metadata file not found: item_metadata.csv";
        INFO "Initializing HybridRecommender"] true).
Proof.
  split; [exact half_in_range|]. split; [reflexivity|].
  split; [exact (proj1 (@missing_file_is_reported demo_library
                          "user_item_interactions.csv" "item_metadata.csv"
                          (1 # 2) empty_disk half_in_range) eq_refl)|].
  split; [reflexivity|]. split; [reflexivity|].
  exact (proj2 (@missing_file_is_reported demo_library
                  "user_item_interactions.csv" "item_metadata.csv"
                  (1 # 2) disk_without_metadata half_in_range)
           _ eq_refl eq_refl).
Defined.

Lemma missing_column_is_reported_witness :
  (0 <= 1 # 2 /\ 1 # 2 <= 1)%Q /\
  In "user_id"%string required_interaction_cols /\
  ~ In "user_id"%string (columns catalogue_3) /\
  HybridRecommender "user_item_interactions.csv" "item_metadata.csv" (1 # 2)
    (disk catalogue_3 catalogue_3)
  = (Raise (ValueError
       "Interactions data missing required columns: ['user_id', 'item_id', 'rating']"),
     mkWorld (fs (disk catalogue_3 catalogue_3))
       [ERROR "Initialization failed: Interactions data missing required columns: ['user_id', 'item_id', 'rating']";
        INFO "Initializing HybridRecommender"] true).
Proof.
  assert (Hreq : In "user_id"%string required_interaction_cols)
    by (left; reflexivity).
  assert (Hnot : ~ In "user_id"%string (columns catalogue_3))
    by (simpl; intuition discriminate).
  split; [exact half_in_range|]. split; [exact Hreq|]. split; [exact Hnot|].
  exact (proj1 (@missing_column_is_reported demo_library
                  "user_item_interactions.csv" "item_metadata.csv" (1 # 2)
                  (disk catalogue_3 catalogue_3) catalogue_3 catalogue_3
                  "user_id" half_in_range eq_refl eq_refl) Hreq Hnot).
Defined.

Lemma catalogue_is_kept_with_descriptions_filled_witness :
  exists recommender w',
    HybridRecommender "user_item_interactions.csv" "item_metadata.csv" (1 # 2)
      (disk ratings_4 catalogue_with_gap) = (Ok recommender, w') /\
    exists fi fm d,
      fs (disk ratings_4 catalogue_with_gap) "user_item_interactions.csv"
      = Some (Csv fi) /\
      fs (disk ratings_4 catalogue_with_gap) "item_metadata.csv"
      = Some (Csv fm) /\
      o_interactions recommender = Some fi /\
      o_item_data recommender = Some d /\
      columns d = columns fm /\
      item_ids d = item_ids fm /\
      Forall2 (fun r r' =>
                 r_description r'
                 = Some (match r_description r with
                         | Some text => text
                         | None => ""%string
                         end))
              (rows fm) (rows d) /\
      (forall r', In r' (rows d) -> r_description r' <> None).
Proof.
  do 2 eexists.
  assert (H : HybridRecommender "user_item_interactions.csv"
                "item_metadata.csv" (1 # 2) (disk ratings_4 catalogue_with_gap)
              = (Ok (@constructed demo_library (1 # 2) ratings_4
                       catalogue_with_gap (fun _ _ => 3%Q) (tt, 3%nat)
                       (identity_matrix 3)),
                 mkWorld (fs (disk ratings_4 catalogue_with_gap))
                   (construction_log 1%Q
                    ++ log (disk ratings_4 catalogue_with_gap)) true)).
  { apply (@init_ok demo_library); [reflexivity|repeat split|].
    eexists. eexists. repeat split. }
  split; [exact H|].
  exact (@catalogue_is_kept_with_descriptions_filled demo_library _ _ _ _ _ _ H).
Defined.

Lemma complete_recommender_3 :
  @complete demo_library recommender_3 (1 # 2) tt (fun _ i => inject_Z i)
    [[1; 1 # 2; 0]; [1 # 2; 1; 0]; [0; 0; 1]]%Q catalogue_3.
Proof. repeat split. now exists (Logger "__main__"). Qed.


Lemma save_model_writes_one_file_witness :
  @complete demo_library recommender_3 (1 # 2) tt (fun _ i => inject_Z i)
    [[1; 1 # 2; 0]; [1 # 2; 1; 0]; [0; 0; 1]]%Q catalogue_3 /\
  exists w',
    save_model "model.joblib" (mkState recommender_3 empty_disk)
    = (Ok tt, mkState recommender_3 w') /\
    fs w' "model.joblib" = Some (Joblib dump_3) /\
    (forall q, q <> "model.joblib"%string -> fs w' q = fs empty_disk q) /\
    log w' = INFO "Model saved to model.joblib" :: log empty_disk /\
    logging_configured w' = logging_configured empty_disk.
Proof.
  split; [exact complete_recommender_3|].
  exact (@save_model_writes_one_file demo_library recommender_3 _ _ _ _ _
           "model.joblib" empty_disk complete_recommender_3).
Defined.

Lemma save_model_needs_the_five_attributes_witness :
  (o_alpha (@new_obj demo_library) = None \/
   o_tfidf (@new_obj demo_library) = None \/
   o_cf_model (@new_obj demo_library) = None \/
   o_cosine_sim (@new_obj demo_library) = None \/
   o_item_data (@new_obj demo_library) = None) /\
  exists msg,
    save_model "model.joblib" (mkState new_obj empty_disk)
    = (Raise (AttributeError msg), mkState new_obj empty_disk).
Proof.
  assert (H : o_alpha (@new_obj demo_library) = None \/
              o_tfidf (@new_obj demo_library) = None \/
              o_cf_model (@new_obj demo_library) = None \/
              o_cosine_sim (@new_obj demo_library) = None \/
              o_item_data (@new_obj demo_library) = None)
    by (left; reflexivity).
  split; [exact H|].
  exact (@save_model_needs_the_five_attributes demo_library new_obj
           "model.joblib" empty_disk H).
Defined.

Lemma saving_a_loaded_instance_fails_after_writing_witness :
  load_model "model.joblib" disk_with_model
  = (Ok (restored dump_3), disk_with_model) /\
  disk_with_model = disk_with_model /\
  o_logger (restored dump_3) = None /\
  o_interactions (restored dump_3) = None /\
  o_tfidf_matrix (restored dump_3) = None /\
  forall path2 w2, exists w2',
    save_model path2 (mkState (restored dump_3) w2)
    = (Raise (AttributeError
                "'HybridRecommender' object has no attribute 'logger'"),
       mkState (restored dump_3) w2') /\
    load_model path2 w2' = (Ok (restored dump_3), w2') /\
    log w2' = log w2.
Proof.
  assert (H : load_model "model.joblib" disk_with_model
              = (Ok (restored dump_3), disk_with_model)) by reflexivity.
  split; [exact H|].
  exact (@saving_a_loaded_instance_fails_after_writing demo_library _ _ _ _ H).
Defined.


(** ** Scores of the seeded branch, and the life of an instance *)

Lemma merge_outer_right (left right : list (Z * Q)) (k : Z) (c b : option Q) :
  In (k, c, b) (merge_outer left right) ->
  match b with
  | Some w => In (k, w) right
  | None => ~ In k (map fst right)
  end.
Proof.
  unfold merge_outer. rewrite in_flat_map. intros [k' [_ Hin]].
  destruct (rows_of_key k' left) as [|l0 ls] eqn:Hl.
  - apply in_map_iff in Hin. destruct Hin as [r [Heq Hr]].
    injection Heq as -> <- <-. now apply rows_of_key_In.
  - destruct (rows_of_key k' right) as [|r0 rs] eqn:Hr.
    + apply in_map_iff in Hin. destruct Hin as [l [Heq Hin]].
      injection Heq as -> <- <-. now apply rows_of_key_nil.
    + apply in_flat_map in Hin. destruct Hin as [l [Hlin Hin]].
      apply in_map_iff in Hin. destruct Hin as [r [Heq Hrin]].
      injection Heq as -> <- <-. apply rows_of_key_In. now rewrite Hr.
Qed.

Section Lifecycle.
Context {L : Library}.

(** X20.  When the content-based block yields candidates, the cb_score of
    a returned item is its similarity as a candidate, and it is missing
    exactly for the items that are not candidates. *)
Theorem cb_score_is_the_candidate_similarity (self : obj) (user_id : Z)
    (item_id : option Z) (n : Z) (cb : list (Z * Q))
    (out : frame (scores * row)) :
  cb_recs self item_id n = Ok cb -> cb <> [] ->
  recommend_items self user_id item_id n = Ok out ->
  forall s r, In (s, r) (rows out) ->
    (forall v, cb_score s = Some v -> In (s_item_id s, v) cb) /\
    (cb_score s = None -> ~ In (s_item_id s) (map fst cb)).
Proof.
  intros Hcb Hne Hout s r Hin.
  pose proof (recommend_items_inv _ _ _ _ _ Hout)
    as (cf & cb' & fr & d & _ & Hcb' & Hfr & _ & Heq).
  assert (cb' = cb) by congruence. subst cb'.
  rewrite Heq in Hin. apply returned_line in Hin.
  destruct (combine_recs_blend self cf cb fr Hfr Hne) as (a & _ & _ & Hrows).
  destruct (Hrows s Hin) as [Hrow _]. apply merge_outer_right in Hrow.
  split.
  - intros v Hv. now rewrite Hv in Hrow.
  - intros Hv. now rewrite Hv in Hrow.
Qed.

(** X21.  An instance returned by the constructor answers every query
    without a seed item, for every user and every [n]; and when the
    similarity matrix the library returned has one row and one column per
    catalogue row, it answers every query whose seed item is in the
    catalogue. *)
Theorem constructed_instance_answers
    (interactions_path metadata_path : string) (alpha : Q) (w w' : world)
    (recommender : obj) :
  HybridRecommender interactions_path metadata_path alpha w
  = (Ok recommender, w') ->
  exists d sim,
    o_item_data recommender = Some d /\
    o_cosine_sim recommender = Some sim /\
    (forall user_id n,
       exists out, recommend_items recommender user_id None n = Ok out) /\
    (square d sim ->
     forall user_id item_id n, In item_id (item_ids d) ->
       exists out,
         recommend_items recommender user_id (Some item_id) n = Ok out).
Proof.
  intros H. apply constructed_inv in H.
  destruct H as (fi & fm & fitted & v & tf & sim & _ & _ & _ & ->).
  exists (fillna_description fm), sim.
  split; [reflexivity|]. split; [reflexivity|]. split.
  - intros user_id n. unfold recommend_items.
    rewrite (cf_recs_ok (constructed alpha fi fm fitted tf sim)
               (fillna_description fm) fitted user_id eq_refl eq_refl).
    simpl. eauto.
  - intros Hsq user_id item_id n Hin.
    apply (recommend_items_ok (constructed alpha fi fm fitted tf sim)
             (fillna_description fm) fitted alpha sim).
    + unfold ready. simpl. auto.
    + intros i Hi. now injection Hi as <-.
Qed.

(** X22.  A construction that returns has logged exactly six records, in
    the order of the steps: initialisation, data loaded, collaborative
    model, its RMSE, content-based filtering, similarity matrix; the
    records logged before are kept and logging is configured. *)
Theorem successful_construction_log
    (interactions_path metadata_path : string) (alpha : Q) (w w' : world)
    (recommender : obj) :
  HybridRecommender interactions_path metadata_path alpha w
  = (Ok recommender, w') ->
  exists v,
    log w'
    = [INFO "Calculating item similarity matrix";
       INFO "Initializing content-based filtering";
       INFO_rmse v;
       INFO "Initializing collaborative filtering model";
       INFO "Data loaded successfully";
       INFO "Initializing HybridRecommender"] ++ log w /\
    logging_configured w' = true.
Proof.
  intros H. pose proof (constructed_inv _ _ _ _ _ _ H)
    as (fi & fm & fitted & v & tf & sim & Ha & Hin & Hlib & _).
  rewrite (init_ok _ _ _ _ fi fm fitted v tf sim Ha Hin Hlib) in H.
  injection H as _ <-. exists v. split; reflexivity.
Qed.

End Lifecycle.

Lemma cb_score_is_the_candidate_similarity_witness :
  exists cb out,
    cb_recs recommender_3 (Some 1) 1 = Ok cb /\ cb <> [] /\
    recommend_items recommender_3 7 (Some 1) 1 = Ok out /\
    forall s r, In (s, r) (rows out) ->
      (forall v, cb_score s = Some v -> In (s_item_id s, v) cb) /\
      (cb_score s = None -> ~ In (s_item_id s) (map fst cb)).
Proof.
  do 2 eexists. split; [vm_compute; reflexivity|]. split; [discriminate|].
  split; [vm_compute; reflexivity|].
  eapply (cb_score_is_the_candidate_similarity recommender_3 7 (Some 1) 1);
    try (vm_compute; reflexivity).
  discriminate.
Defined.

Lemma constructed_demo :
  HybridRecommender "user_item_interactions.csv" "item_metadata.csv" (1 # 2)
    (disk ratings_4 catalogue_3)
  = (Ok (@constructed demo_library (1 # 2) ratings_4 catalogue_3
           (fun _ _ => 3%Q) (tt, 3%nat) (identity_matrix 3)),
     mkWorld (fs (disk ratings_4 catalogue_3))
       (construction_log 1%Q ++ log (disk ratings_4 catalogue_3)) true).
Proof.
  apply (@init_ok demo_library);
    [reflexivity|exact inputs_ok_demo|exact libraries_ok_demo].
Qed.

Lemma constructed_instance_answers_witness :
  exists recommender w',
    HybridRecommender "user_item_interactions.csv" "item_metadata.csv" (1 # 2)
      (disk ratings_4 catalogue_3) = (Ok recommender, w') /\
    exists d sim,
      o_item_data recommender = Some d /\
      o_cosine_sim recommender = Some sim /\
      (forall user_id n,
         exists out, recommend_items recommender user_id None n = Ok out) /\
      (square d sim ->
       forall user_id item_id n, In item_id (item_ids d) ->
         exists out,
           recommend_items recommender user_id (Some item_id) n = Ok out).
Proof.
  do 2 eexists. split; [exact constructed_demo|].
  exact (@constructed_instance_answers demo_library _ _ _ _ _ _
           constructed_demo).
Defined.

Lemma successful_construction_log_witness :
  exists recommender w',
    HybridRecommender "user_item_interactions.csv" "item_metadata.csv" (1 # 2)
      (disk ratings_4 catalogue_3) = (Ok recommender, w') /\
    exists v,
      log w'
      = [INFO "Calculating item similarity matrix";
         INFO "Initializing content-based filtering";
         INFO_rmse v;
         INFO "Initializing collaborative filtering model";
         INFO "Data loaded successfully";
         INFO "Initializing HybridRecommender"]
        ++ log (disk ratings_4 catalogue_3) /\
      logging_configured w' = true.
Proof.
  do 2 eexists. split; [exact constructed_demo|].
  exact (@successful_construction_log demo_library _ _ _ _ _ _
           constructed_demo).
Defined.

(** C2, at the failing input.  An instance is constructed, saved and loaded
    again.  The loaded instance is a trained one: it holds the fitted model
    and recommends as the saved one does.  But [load_model] sets no logger,
    which [__init__] does through [_setup_logging]; so [save_model] on the
    loaded instance writes its file and then raises [AttributeError] at
    [self.logger.info]: the call that should start the second round trip
    fails. *)
Theorem loaded_instance_cannot_be_saved :
  exists recommender w1 w2 loaded w3,
    HybridRecommender "user_item_interactions.csv" "item_metadata.csv" (1 # 2)
      (disk ratings_4 catalogue_3) = (Ok recommender, w1) /\
    save_model "model.joblib" (mkState recommender w1)
    = (Ok tt, mkState recommender w2) /\
    load_model "model.joblib" w2 = (Ok loaded, w2) /\
    o_cf_model loaded = o_cf_model recommender /\
    (forall user_id item_id n,
       recommend_items loaded user_id item_id n
       = recommend_items recommender user_id item_id n) /\
    save_model "copy.joblib" (mkState loaded w2)
    = (Raise (AttributeError
                "'HybridRecommender' object has no attribute 'logger'"),
       mkState loaded w3) /\
    fs w3 "copy.joblib" <> fs w2 "copy.joblib".
Proof.
  do 5 eexists.
  split; [exact constructed_demo|].
  split; [reflexivity|]. split; [reflexivity|]. split; [reflexivity|].
  split; [intros user_id item_id n; reflexivity|].
  split; [reflexivity|]. cbn. discriminate.
Qed.
